(** * The HTTP gateway of AZUREMAI2: origin classification, routing and
      response writing.

    The development embeds the request listener of the gateway (the
    server entry script: [sendJson], [setCors] and the listener passed to
    [http.createServer]) and states its routing and header properties.

    Conventions of the embedding.
    - A JavaScript string is a [string]; header values, methods and paths
      are byte strings as Node hands them to the listener.  Text written
      to the socket is represented by its UTF-8 bytes, so that
      [Buffer.byteLength] is [String.length].
    - The response object is explicit state: the header table, the
      [headersSent] and [finished] flags, and the list of effects in the
      order the listener performs them.
    - [JSON.parse] and the two collaborators ([fetchPlans],
      [generateClosingScript]) are parameters of the listener. *)

From Stdlib Require Import Ascii String.
From stdpp Require Import base decidable option list strings gmap.

Open Scope string_scope.
Open Scope list_scope.

(** ** Regular expressions as the listener uses them *)

Module RegExp.

(** Pattern syntax: character classes, concatenation, alternation and
    iteration are all the two literals of [setCors] need. *)
Inductive regex : Type :=
| Void
| Eps
| Class (p : ascii → bool)
| Cat (r1 r2 : regex)
| Alt (r1 r2 : regex)
| Star (r : regex).

Definition Plus (r : regex) : regex := Cat r (Star r).
Definition Opt (r : regex) : regex := Alt r Eps.

(** [Canonicalize] of the [i] flag without the [u] flag, as far as a
    pattern of ASCII characters can see it: a character is compared
    through its upper-case form, and a character above 127 never
    canonicalizes to an ASCII one, so against the pattern only the ASCII
    letters fold. *)
Definition canonicalize (c : ascii) : ascii :=
  let n := nat_of_ascii c in
  if ((97 <=? n) && (n <=? 122))%nat then ascii_of_nat (n - 32) else c.

Definition chr_i (c : ascii) : regex :=
  Class (λ x, bool_decide (canonicalize x = canonicalize c)).

Definition chr (c : ascii) : regex := Class (λ x, bool_decide (x = c)).

(** A literal run of pattern characters under the [i] flag. *)
Fixpoint lit_i (s : string) : regex :=
  match s with
  | EmptyString => Eps
  | String c s' => Cat (chr_i c) (lit_i s')
  end.

(** [\d] is the ASCII digits; [[^.]] is every character but the dot. *)
Definition is_digit (c : ascii) : bool :=
  let n := nat_of_ascii c in ((48 <=? n) && (n <=? 57))%nat.
Definition is_dot_free (c : ascii) : bool := negb (bool_decide (c = "."%char)).

Definition digit : regex := Class is_digit.
Definition not_dot : regex := Class is_dot_free.

Fixpoint nullable (r : regex) : bool :=
  match r with
  | Void => false
  | Eps => true
  | Class _ => false
  | Cat r1 r2 => nullable r1 && nullable r2
  | Alt r1 r2 => nullable r1 || nullable r2
  | Star _ => true
  end.

Fixpoint deriv (c : ascii) (r : regex) : regex :=
  match r with
  | Void => Void
  | Eps => Void
  | Class p => if p c then Eps else Void
  | Cat r1 r2 =>
      if nullable r1
      then Alt (Cat (deriv c r1) r2) (deriv c r2)
      else Cat (deriv c r1) r2
  | Alt r1 r2 => Alt (deriv c r1) (deriv c r2)
  | Star r1 => Cat (deriv c r1) (Star r1)
  end.

(** The pattern consumes exactly [s]. *)
Fixpoint matches (r : regex) (s : string) : bool :=
  match s with
  | EmptyString => nullable r
  | String c s' => matches (deriv c r) s'
  end.

(** [/^r$/.test(s)]: the match starts at index 0 and ends at the end of
    the input (no [m] flag, so [$] is the end of the string). *)
Definition test_anchored (r : regex) (s : string) : bool := matches r s.

(** [/r$/.test(s)]: the match is tried at every start index, from 0 to
    the length of [s], and has to end at the end of the input. *)
Fixpoint test_end_anchored (r : regex) (s : string) : bool :=
  matches r s ||
  match s with
  | EmptyString => false
  | String _ s' => test_end_anchored r s'
  end.

(** The words of a pattern, as a relation. *)
Inductive lang : regex → string → Prop :=
| lang_eps : lang Eps EmptyString
| lang_class p c : p c = true → lang (Class p) (String c EmptyString)
| lang_cat r1 r2 s1 s2 : lang r1 s1 → lang r2 s2 → lang (Cat r1 r2) (s1 +:+ s2)
| lang_alt_l r1 r2 s : lang r1 s → lang (Alt r1 r2) s
| lang_alt_r r1 r2 s : lang r2 s → lang (Alt r1 r2) s
| lang_star_nil r : lang (Star r) EmptyString
| lang_star_cons r s1 s2 :
    lang r s1 → lang (Star r) s2 → lang (Star r) (s1 +:+ s2).

(** The concatenation of a list of words. *)
Fixpoint flatten (ws : list string) : string :=
  match ws with
  | [] => EmptyString
  | w :: rest => w +:+ flatten rest
  end.

End RegExp.

(** ** The origin patterns of [setCors] *)

Module Origin.
Import RegExp.

(** [/https:\/\/([^.]+\.)*sunfirematrix\.com$/i] : the group is a run of
    non-dot characters and a dot, any number of times.  The literal has
    no [^]. *)
Definition sunfire_pattern : regex :=
  Cat (lit_i "https://")
    (Cat (Star (Cat (Plus not_dot) (chr "."%char)))
       (lit_i "sunfirematrix.com")).

(** [/^http:\/\/localhost(?::\d+)?$/i] *)
Definition local_pattern : regex :=
  Cat (lit_i "http://localhost")
    (Opt (Cat (chr ":"%char) (Plus digit))).

Definition isSunfire (origin : string) : bool :=
  test_end_anchored sunfire_pattern origin.

Definition isLocal (origin : string) : bool :=
  test_anchored local_pattern origin.

(** [origin.startsWith('chrome-extension://')] *)
Definition isExtension (origin : string) : bool :=
  String.prefix "chrome-extension://" origin.

(** The condition of the [if] in [setCors]. *)
Definition echoes (origin : string) : bool :=
  isSunfire origin || isLocal origin || isExtension origin.

(** The classifier as the specification words it: the three patterns,
    each matched against the whole origin string. *)
Definition spec_isSunfire (origin : string) : bool :=
  test_anchored sunfire_pattern origin.

Definition spec_echoes (origin : string) : bool :=
  spec_isSunfire origin || isLocal origin || isExtension origin.

(** The same patterns spelled out on strings.  Two strings are the same up
    to the case of ASCII letters; a label is a non-empty run of characters
    without a dot; [dotted] writes each label followed by a dot. *)
Fixpoint same_fold (a b : string) : bool :=
  match a, b with
  | EmptyString, EmptyString => true
  | String x a', String y b' =>
      bool_decide (canonicalize x = canonicalize y) && same_fold a' b'
  | _, _ => false
  end.

Fixpoint all_chars (p : ascii → bool) (s : string) : bool :=
  match s with
  | EmptyString => true
  | String c s' => p c && all_chars p s'
  end.

Definition is_label (l : string) : Prop :=
  l ≠ EmptyString ∧ all_chars is_dot_free l = true.

Fixpoint dotted (labels : list string) : string :=
  match labels with
  | [] => EmptyString
  | l :: rest => l +:+ "." +:+ dotted rest
  end.

(** [https://<labels.>sunfirematrix.com], the whole string. *)
Definition sunfire_shape (o : string) : Prop :=
  ∃ scheme labels apex,
    o = scheme +:+ dotted labels +:+ apex
    ∧ same_fold scheme "https://" = true
    ∧ Forall is_label labels
    ∧ same_fold apex "sunfirematrix.com" = true.

(** [http://localhost] with an optional [:port], the whole string. *)
Definition local_shape (o : string) : Prop :=
  ∃ base port,
    o = base +:+ port
    ∧ same_fold base "http://localhost" = true
    ∧ (port = EmptyString
       ∨ ∃ digits, port = ":" +:+ digits ∧ digits ≠ EmptyString
                   ∧ all_chars is_digit digits = true).

(** A string that starts with [chrome-extension://]. *)
Definition extension_shape (o : string) : Prop :=
  ∃ rest, o = "chrome-extension://" +:+ rest.

(** The origins the specification approves: one of the three shapes, each
    for the whole string. *)
Definition approved (o : string) : Prop :=
  sunfire_shape o ∨ local_shape o ∨ extension_shape o.

End Origin.

(** ** JavaScript values, completions and [JSON.stringify] *)

Module Js.

(** The values that reach the listener: what [JSON.parse] builds, what a
    collaborator resolves with, what it rejects with.  A [Number] is kept
    as the text [ToString] gives for it; the properties of an [Object] are
    its own enumerable string-keyed properties in enumeration order; an
    [ErrorObj] is an [Error] instance (no enumerable property). *)
#[warnings="-register-all"] Inductive value : Type :=
| Undefined
| Null
| Bool (b : bool)
| Number (text : string)
| BigInt (n : Z)
| Str (s : string)
| Array (items : list value)
| Object (props : list (string * value))
| ErrorObj (name message : string).

(** What can be thrown: the errors the runtime raises itself, and any
    value a collaborator rejects with. *)
Inductive exn : Type :=
| SyntaxError
| TypeError
| ERR_HTTP_HEADERS_SENT
| ERR_STREAM_WRITE_AFTER_END
| Thrown (reason : value).

Inductive completion (A : Type) : Type :=
| Normal (a : A)
| Throw (e : exn).
Arguments Normal {A} a.
Arguments Throw {A} e.

(** The outcome of awaiting a promise a collaborator returned. *)
Inductive settled : Type :=
| Fulfilled (v : value)
| Rejected (reason : value).

Definition quote_char : ascii := "034"%char.
Definition backslash : ascii := "092"%char.

Definition hex_digit (n : nat) : ascii :=
  if (n <? 10)%nat then ascii_of_nat (48 + n) else ascii_of_nat (87 + n).

(** One character of [QuoteJSONString]. *)
Definition quote_one (c : ascii) : string :=
  let n := nat_of_ascii c in
  let esc (x : ascii) := String backslash (String x EmptyString) in
  if bool_decide (n = 8) then esc "b"%char
  else if bool_decide (n = 9) then esc "t"%char
  else if bool_decide (n = 10) then esc "n"%char
  else if bool_decide (n = 12) then esc "f"%char
  else if bool_decide (n = 13) then esc "r"%char
  else if bool_decide (n = 34) then esc quote_char
  else if bool_decide (n = 92) then esc backslash
  else if (n <? 32)%nat then
    String backslash
      (String "u" (String "0" (String "0"
         (String (hex_digit (n / 16)) (String (hex_digit (n mod 16)) EmptyString)))))
  else String c EmptyString.

Fixpoint quote_body (s : string) : string :=
  match s with
  | EmptyString => EmptyString
  | String c s' => quote_one c +:+ quote_body s'
  end.

Definition quote (s : string) : string :=
  String quote_char (quote_body s +:+ String quote_char EmptyString).

Fixpoint join_comma (l : list string) : string :=
  match l with
  | [] => EmptyString
  | [x] => x
  | x :: rest => x +:+ "," +:+ join_comma rest
  end.

Definition finite_text (t : string) : bool :=
  negb (bool_decide (t = "NaN") || bool_decide (t = "Infinity")
        || bool_decide (t = "-Infinity")).

(** [SerializeJSONProperty]: [Normal None] is the result [undefined].
    Inside an array [undefined] is written [null]; inside an object the
    property is left out; a [BigInt] anywhere throws. *)
Fixpoint serialize (v : value) : completion (option string) :=
  match v with
  | Undefined => Normal None
  | Null => Normal (Some "null")
  | Bool b => Normal (Some (if b then "true" else "false"))
  | Number t => Normal (Some (if finite_text t then t else "null"))
  | BigInt _ => Throw TypeError
  | Str s => Normal (Some (quote s))
  | Array items =>
      let fix elements (l : list value) : completion (list string) :=
        match l with
        | [] => Normal []
        | x :: rest =>
            match serialize x with
            | Throw e => Throw e
            | Normal o =>
                match elements rest with
                | Throw e => Throw e
                | Normal acc => Normal (default "null" o :: acc)
                end
            end
        end in
      match elements items with
      | Throw e => Throw e
      | Normal parts => Normal (Some ("[" +:+ join_comma parts +:+ "]"))
      end
  | Object props =>
      let fix members (l : list (string * value)) : completion (list string) :=
        match l with
        | [] => Normal []
        | (k, x) :: rest =>
            match serialize x with
            | Throw e => Throw e
            | Normal o =>
                match members rest with
                | Throw e => Throw e
                | Normal acc =>
                    Normal (match o with
                            | Some t => (quote k +:+ ":" +:+ t) :: acc
                            | None => acc
                            end)
                end
            end
        end in
      match members props with
      | Throw e => Throw e
      | Normal parts => Normal (Some ("{" +:+ join_comma parts +:+ "}"))
      end
  | ErrorObj _ _ => Normal (Some "{}")
  end.

(** [JSON.stringify(v)] with one argument. *)
Definition JSON_stringify (v : value) : completion (option string) :=
  serialize v.

(** [Buffer.byteLength(x)]: the UTF-8 length of a string; anything that
    is not a string, [undefined] included, is a [TypeError]. *)
Definition Buffer_byteLength (x : option string) : completion nat :=
  match x with
  | Some s => Normal (String.length s)
  | None => Throw TypeError
  end.

(** [a || b] on strings: the empty string is falsy. *)
Definition or_string (a b : string) : string :=
  if bool_decide (a = EmptyString) then b else a.

(** [o || b] where [o] may be [undefined]. *)
Definition or_default (o : option string) (b : string) : string :=
  match o with
  | Some a => or_string a b
  | None => b
  end.

End Js.

(** ** The response object and the effects of the listener *)

Module Http.
Import Js.

(** A header value as the listener passes it: a string, or a number that
    Node prints in decimal. *)
Inductive header_value : Type :=
| HStr (s : string)
| HNum (n : nat).

Inductive collaborator : Type :=
| FetchPlans
| GenerateClosingScript.

(** What the listener does, in order.  [EvSetHeader] is a header stored in
    the table of the response; [EvHead] is the status line and the whole
    header block put on the wire; [EvEnd] is the body (if any) written and
    the response terminated; [EvCall] is a collaborator invoked;
    [EvConsoleError] is a line on the server log. *)
Inductive event : Type :=
| EvSetHeader (name : string) (v : header_value)
| EvHead (status : nat) (block : gmap string header_value)
| EvEnd (body : option string)
| EvCall (c : collaborator) (payload : value)
| EvConsoleError (e : exn).

(** [http.ServerResponse], as far as the listener uses it.  Header names
    are case-insensitive: the table is keyed by the lower-cased name. *)
Record world : Type := World {
  outHeaders : gmap string header_value;
  headersSent : bool;
  finished : bool;
  trace : list event
}.

Definition fresh : world :=
  {| outHeaders := ∅; headersSent := false; finished := false; trace := [] |}.

Definition lower_char (c : ascii) : ascii :=
  let n := nat_of_ascii c in
  if ((65 <=? n) && (n <=? 90))%nat then ascii_of_nat (n + 32) else c.

Fixpoint lower_name (s : string) : string :=
  match s with
  | EmptyString => EmptyString
  | String c s' => String (lower_char c) (lower_name s')
  end.

(** Computations of the listener: they read and update the response, and
    either complete or throw. *)
Definition M (A : Type) : Type := world → completion A * world.

Definition ret {A} (a : A) : M A := λ w, (Normal a, w).

Definition bind {A B} (m : M A) (k : A → M B) : M B :=
  λ w, match m w with
       | (Normal a, w') => k a w'
       | (Throw e, w') => (Throw e, w')
       end.

Definition throw {A} (e : exn) : M A := λ w, (Throw e, w).

(** [try { m } catch (err) { h err }] *)
Definition try_catch {A} (m : M A) (h : exn → M A) : M A :=
  λ w, match m w with
       | (Normal a, w') => (Normal a, w')
       | (Throw e, w') => h e w'
       end.

Definition lift {A} (c : completion A) : M A := λ w, (c, w).

Definition emit (e : event) : M unit :=
  λ w, (Normal tt,
        {| outHeaders := outHeaders w; headersSent := headersSent w;
           finished := finished w; trace := trace w ++ [e] |}).

Declare Scope js_scope.
Delimit Scope js_scope with js.
Notation "x <- m ;; k" := (bind m (λ x, k))
  (at level 100, m at next level, k at level 200, right associativity) : js_scope.
Notation "m ;; k" := (bind m (λ _, k))
  (at level 100, k at level 200, right associativity) : js_scope.

Definition store (name : string) (v : header_value)
    (t : gmap string header_value) : gmap string header_value :=
  <[lower_name name := v]> t.

(** [res.setHeader(name, value)] *)
Definition setHeader (name : string) (v : header_value) : M unit :=
  λ w, if headersSent w then (Throw ERR_HTTP_HEADERS_SENT, w)
       else (Normal tt,
             {| outHeaders := store name v (outHeaders w);
                headersSent := headersSent w; finished := finished w;
                trace := trace w ++ [EvSetHeader name v] |}).

(** [res.writeHead(status, obj)]: the headers of [obj] are stored over the
    table, then the status line and the table go out. *)
Definition writeHead (status : nat) (obj : list (string * header_value)) : M unit :=
  λ w, if headersSent w then (Throw ERR_HTTP_HEADERS_SENT, w)
       else
         let block := foldl (λ t kv, store kv.1 kv.2 t) (outHeaders w) obj in
         (Normal tt,
          {| outHeaders := block; headersSent := true; finished := finished w;
             trace := trace w ++ [EvHead status block] |}).

(** [res.end(data)]: on a response that is already finished a call with
    data is an error and a call without is ignored; if the head is not out
    yet it goes out first with the default status. *)
Definition end_ (data : option string) : M unit :=
  λ w, if finished w then
         match data with
         | Some _ => (Throw ERR_STREAM_WRITE_AFTER_END, w)
         | None => (Normal tt, w)
         end
       else
         let head := if headersSent w then [] else [EvHead 200 (outHeaders w)] in
         (Normal tt,
          {| outHeaders := outHeaders w; headersSent := true; finished := true;
             trace := trace w ++ head ++ [EvEnd data] |}).

(** [console.error(err)] *)
Definition console_error (e : exn) : M unit := emit (EvConsoleError e).

End Http.

(** ** The gateway: [sendJson], [setCors] and the request listener *)

Module Gateway.
Import Js Http.
Open Scope js_scope.

(** What the entry script imports and what the runtime provides:
    [JSON.parse] ([None] when it throws its [SyntaxError]) and the two
    collaborators, each given by how the promise it returns settles. *)
Class Platform : Type := {
  JSON_parse : string → option value;
  fetchPlans : value → settled;
  generateClosingScript : value → settled
}.

(** [http.IncomingMessage] as the listener reads it: the method, the
    request target, the [Origin] header if there is one, and the chunks of
    the body in arrival order, each as the string that [body += chunk]
    appends, up to the [end] event. *)
Record IncomingMessage : Type := {
  method : string;
  url : string;
  origin : option string;
  chunks : list string
}.

Definition sendJson (status : nat) (payload : value) : M unit :=
  body <- lift (JSON_stringify payload) ;;
  len <- lift (Buffer_byteLength body) ;;
  writeHead status [("Content-Type", HStr "application/json");
                    ("Content-Length", HNum len)] ;;
  end_ body.

Definition setCors (req : IncomingMessage) : M unit :=
  let origin := or_default (origin req) EmptyString in
  let isSunfire := Origin.isSunfire origin in
  let isLocal := Origin.isLocal origin in
  let isExtension := Origin.isExtension origin in
  (if isSunfire || isLocal || isExtension then
     setHeader "Access-Control-Allow-Origin" (HStr origin) ;;
     setHeader "Vary" (HStr "Origin")
   else ret tt) ;;
  setHeader "Access-Control-Allow-Methods" (HStr "GET, POST, OPTIONS") ;;
  setHeader "Access-Control-Allow-Headers" (HStr "Content-Type, Authorization") ;;
  setHeader "Access-Control-Max-Age" (HStr "86400").

(** The imported function behind each collaborator. *)
Definition invoke `{Platform} (c : collaborator) (payload : value) : settled :=
  match c with
  | FetchPlans => fetchPlans payload
  | GenerateClosingScript => generateClosingScript payload
  end.

(** [await c(payload)] inside a [try]: a rejection is thrown at the
    [await]. *)
Definition await `{Platform} (c : collaborator) (payload : value) : M value :=
  emit (EvCall c payload) ;;
  match invoke c payload with
  | Fulfilled v => ret v
  | Rejected reason => throw (Thrown reason)
  end.

(** The object literals of the script. *)
Definition error_object (message : string) : value :=
  Object [("error", Str message)].
Definition status_ok : value := Object [("status", Str "ok")].

(** Whether the listener returned with the body callbacks registered. *)
Inductive registration : Type :=
| Answered
| AwaitingBody.

(** The listener up to its last line: the answer is written here unless
    the method is POST, in which case [req.on('data')] and [req.on('end')]
    are registered and nothing is written yet. *)
Definition requestListener (req : IncomingMessage) : M registration :=
  setCors req ;;
  if bool_decide (method req = "OPTIONS") then
    writeHead 204 [] ;;
    end_ None ;;
    ret Answered
  else if bool_decide (method req = "GET")
          && (bool_decide (url req = "/api/health")
              || bool_decide (url req = "/health")) then
    writeHead 200 [("Content-Type", HStr "application/json")] ;;
    text <- lift (JSON_stringify status_ok) ;;
    end_ text ;;
    ret Answered
  else if negb (bool_decide (method req = "POST")) then
    sendJson 404 (error_object "Not found") ;;
    ret Answered
  else ret AwaitingBody.

(** The [data] callback: [body += chunk]. *)
Definition onData (body chunk : string) : string := body +:+ chunk.

(** The second [try] of the [end] callback: the route is chosen by the
    request target, and whatever is thrown inside is caught, logged and
    answered with a 500. *)
Definition dispatch `{Platform} (req : IncomingMessage) (payload : value) : M unit :=
  try_catch
    (if bool_decide (url req = "/plans") || bool_decide (url req = "/api/plans") then
       plans <- await FetchPlans payload ;;
       sendJson 200 plans
     else if bool_decide (url req = "/ai-recommend")
             || bool_decide (url req = "/api/recommend") then
       result <- await GenerateClosingScript payload ;;
       sendJson 200 result
     else sendJson 404 (error_object "Not found"))
    (λ err,
       console_error err ;;
       sendJson 500 (error_object "Internal server error")).

(** The [end] callback: [JSON.parse(body || '{}')] in the first [try],
    whose [catch] answers 400 and returns. *)
Definition onEnd `{Platform} (req : IncomingMessage) (body : string) : M unit :=
  parsed <- try_catch
              (match JSON_parse (or_string body "{}") with
               | Some payload => ret (Some payload)
               | None => throw SyntaxError
               end)
              (λ _, sendJson 400 (error_object "Invalid JSON") ;; ret None) ;;
  match parsed with
  | None => ret tt
  | Some payload => dispatch req payload
  end.

(** One request from the first line of the listener to the end of the
    [end] callback: the chunks are appended in arrival order and the body
    is parsed only after the last one. *)
Definition serve `{Platform} (req : IncomingMessage) : M unit :=
  r <- requestListener req ;;
  match r with
  | Answered => ret tt
  | AwaitingBody => onEnd req (foldl onData EmptyString (chunks req))
  end.

Definition run `{Platform} (req : IncomingMessage) : completion unit * world :=
  serve req fresh.

End Gateway.

(** ** A platform to run the listener on concrete requests

    [Sample.parse] reads a fragment of JSON: white space, [null], [true],
    [false], integers of at most fifteen digits, strings of printable ASCII
    without escapes, arrays, and objects whose keys are distinct and do not
    start with a digit.  On that fragment it returns what [JSON.parse]
    returns; every other text is rejected. *)

Module Sample.
Import Js Http Gateway.

Definition is_ws (c : ascii) : bool :=
  let n := nat_of_ascii c in
  bool_decide (n = 32) || bool_decide (n = 9) || bool_decide (n = 10)
  || bool_decide (n = 13).

Fixpoint skip_ws (s : string) : string :=
  match s with
  | String c s' => if is_ws c then skip_ws s' else s
  | EmptyString => s
  end.

Fixpoint take_digits (s : string) : string * string :=
  match s with
  | String c s' =>
      if RegExp.is_digit c then let (d, r) := take_digits s' in (String c d, r)
      else (EmptyString, s)
  | EmptyString => (EmptyString, s)
  end.

(** The characters of a string literal up to the closing quote. *)
Fixpoint take_chars (s : string) : option (string * string) :=
  match s with
  | EmptyString => None
  | String c s' =>
      let n := nat_of_ascii c in
      if bool_decide (n = 34) then Some (EmptyString, s')
      else if bool_decide (n = 92) || (n <? 32)%nat || (126 <? n)%nat then None
      else match take_chars s' with
           | Some (t, r) => Some (String c t, r)
           | None => None
           end
  end.

Definition strip (pre s : string) : option string :=
  if String.prefix pre s
  then Some (String.substring (String.length pre) (String.length s - String.length pre) s)
  else None.

Definition parse_int (s : string) : option (value * string) :=
  let (neg, s1) := match s with
                   | String "-" r => (true, r)
                   | _ => (false, s)
                   end in
  let (d, r) := take_digits s1 in
  match d with
  | EmptyString => None
  | String "0" EmptyString => Some (Number "0", r)
  | String "0" _ => None
  | _ => if (String.length d <=? 15)%nat
         then Some (Number (if neg then String "-" d else d), r)
         else None
  end.

Definition key_ok (k : string) (seen : list (string * value)) : bool :=
  match k with
  | String c _ => negb (RegExp.is_digit c)
  | EmptyString => true
  end && negb (existsb (λ kv, bool_decide (kv.1 = k)) seen).

Fixpoint parse_value (fuel : nat) (s : string) : option (value * string) :=
  match fuel with
  | O => None
  | S fuel' =>
      match skip_ws s with
      | String "n" _ => r ← strip "null" (skip_ws s); Some (Null, r)
      | String "t" _ => r ← strip "true" (skip_ws s); Some (Bool true, r)
      | String "f" _ => r ← strip "false" (skip_ws s); Some (Bool false, r)
      | String "[" r =>
          match skip_ws r with
          | String "]" r' => Some (Array [], r')
          | _ => '(items, r') ← parse_items fuel' r; Some (Array items, r')
          end
      | String "{" r =>
          match skip_ws r with
          | String "}" r' => Some (Object [], r')
          | _ => '(props, r') ← parse_members fuel' [] r; Some (Object props, r')
          end
      | String c r =>
          if bool_decide (nat_of_ascii c = 34)
          then '(t, r') ← take_chars r; Some (Str t, r')
          else parse_int (skip_ws s)
      | EmptyString => None
      end
  end
with parse_items (fuel : nat) (s : string) : option (list value * string) :=
  match fuel with
  | O => None
  | S fuel' =>
      '(v, r) ← parse_value fuel' s;
      match skip_ws r with
      | String "]" r' => Some ([v], r')
      | String "," r' => '(vs, r'') ← parse_items fuel' r'; Some (v :: vs, r'')
      | _ => None
      end
  end
with parse_members (fuel : nat) (seen : list (string * value)) (s : string)
    : option (list (string * value) * string) :=
  match fuel with
  | O => None
  | S fuel' =>
      match skip_ws s with
      | String c r =>
          if bool_decide (nat_of_ascii c = 34) then
            '(k, r1) ← take_chars r;
            if key_ok k seen then
              match skip_ws r1 with
              | String ":" r2 =>
                  '(v, r3) ← parse_value fuel' r2;
                  let seen' := seen ++ [(k, v)] in
                  match skip_ws r3 with
                  | String "}" r4 => Some (seen', r4)
                  | String "," r4 => parse_members fuel' seen' r4
                  | _ => None
                  end
              | _ => None
              end
            else None
          else None
      | EmptyString => None
      end
  end.

Definition parse (s : string) : option value :=
  '(v, r) ← parse_value (S (String.length s)) s;
  if bool_decide (skip_ws r = EmptyString) then Some v else None.

(** A plan service that answers with a list of plans, and fails on the
    payload [{"fail":true}]; a script service that always fails. *)
Definition fail_reason : value :=
  ErrorObj "Error" "ECONNREFUSED 10.0.0.7:5432 user=plans_rw".

Definition plans_of (payload : value) : settled :=
  match payload with
  | Object [("fail", Bool true)] => Rejected fail_reason
  | _ => Fulfilled (Array [Object [("id", Number "1"); ("name", Str "Gold")]])
  end.

Definition script_of (payload : value) : settled :=
  Rejected (Str "model quota exhausted for key sk-live-1234").

Definition platform : Platform :=
  {| JSON_parse := parse; fetchPlans := plans_of; generateClosingScript := script_of |}.

Definition get (path : string) (o : option string) : IncomingMessage :=
  {| method := "GET"; url := path; origin := o; chunks := [] |}.

Definition post (path : string) (o : option string) (body : list string)
    : IncomingMessage :=
  {| method := "POST"; url := path; origin := o; chunks := body |}.

(** The body [{"fail":true}] in two chunks, from an extension. *)
Definition fail_request : IncomingMessage :=
  post "/plans" (Some "chrome-extension://abc")
    ["{" +:+ String quote_char "fail"; String quote_char ":true}"].

(** A body that is not JSON, in two chunks. *)
Definition garbage_request : IncomingMessage :=
  post "/plans" None ["not-"; "json{"].

(** No body at all. *)
Definition empty_request : IncomingMessage := post "/plans" None [].

(** Targets that differ from a routed one by a query string, by case and
    by a trailing slash. *)
Definition query_request : IncomingMessage := post "/plans?x=1" None ["{}"].
Definition upper_request : IncomingMessage := post "/Plans" None ["{}"].
Definition slash_request : IncomingMessage := post "/plans/" None ["{}"].

Definition health_request : IncomingMessage := get "/health" None.

End Sample.


(** ** Reading a run: the events on the wire, the headers of a block *)

Module Observe.
Import Js Http Gateway.

Definition dq : string := String quote_char EmptyString.

(** The text [{"error":"<message>"}]. *)
Definition error_text (message : string) : string :=
  "{" +:+ dq +:+ "error" +:+ dq +:+ ":" +:+ dq +:+ message +:+ dq +:+ "}".

(** The text [{"status":"ok"}]. *)
Definition status_ok_text : string :=
  "{" +:+ dq +:+ "status" +:+ dq +:+ ":" +:+ dq +:+ "ok" +:+ dq +:+ "}".

(** The header of a block, by name. *)
Definition header (name : string) (block : gmap string header_value)
    : option header_value :=
  block !! lower_name name.

Definition is_head (e : event) : bool :=
  match e with EvHead _ _ => true | _ => false end.
Definition is_end (e : event) : bool :=
  match e with EvEnd _ => true | _ => false end.
Definition is_call (e : event) : bool :=
  match e with EvCall _ _ => true | _ => false end.
Definition is_set_header (e : event) : bool :=
  match e with EvSetHeader _ _ => true | _ => false end.

(** How many status lines, how many terminations a run put on the wire. *)
Definition heads (tr : list event) : nat := length (filter is_head tr).
Definition ends (tr : list event) : nat := length (filter is_end tr).

(** The events of [setCors] for an origin string, and the table they
    leave. *)
Definition decision_events (o : string) : list event :=
  if Origin.echoes o
  then [EvSetHeader "Access-Control-Allow-Origin" (HStr o);
        EvSetHeader "Vary" (HStr "Origin")]
  else [].

Definition fixed_events : list event :=
  [EvSetHeader "Access-Control-Allow-Methods" (HStr "GET, POST, OPTIONS");
   EvSetHeader "Access-Control-Allow-Headers" (HStr "Content-Type, Authorization");
   EvSetHeader "Access-Control-Max-Age" (HStr "86400")].

Definition cors_events (o : string) : list event :=
  decision_events o ++ fixed_events.

Definition decision_table (o : string) : gmap string header_value :=
  if Origin.echoes o
  then store "Vary" (HStr "Origin")
         (store "Access-Control-Allow-Origin" (HStr o) ∅)
  else ∅.

Definition cors_table (o : string) : gmap string header_value :=
  store "Access-Control-Max-Age" (HStr "86400")
    (store "Access-Control-Allow-Headers" (HStr "Content-Type, Authorization")
       (store "Access-Control-Allow-Methods" (HStr "GET, POST, OPTIONS")
          (decision_table o))).

(** The block [sendJson] writes over a table, for a body text. *)
Definition json_block (text : string) (t : gmap string header_value)
    : gmap string header_value :=
  store "Content-Length" (HNum (String.length text))
    (store "Content-Type" (HStr "application/json") t).

(** The origin string [setCors] works on. *)
Definition origin_of (req : IncomingMessage) : string :=
  or_default (origin req) EmptyString.

(** The state of the response once a head with [block] is out and the
    response is terminated. *)
Definition answered (block : gmap string header_value) (tr : list event) : world :=
  {| outHeaders := block; headersSent := true; finished := true; trace := tr |}.

(** A run that wrote [status], [block] and [body] after the events
    [before], and completed. *)
Definition replied (before : list event) (status : nat)
    (block : gmap string header_value) (body : option string)
    : completion unit * world :=
  (Normal tt, answered block (before ++ [EvHead status block; EvEnd body])).

(** The state [setCors] leaves when it runs on a fresh response. *)
Definition cors_world (o : string) : world :=
  {| outHeaders := cors_table o; headersSent := false; finished := false;
     trace := cors_events o |}.

(** A response state with more events behind it and nothing else
    changed. *)
Definition later (w : world) (evs : list event) : world :=
  {| outHeaders := outHeaders w; headersSent := headersSent w;
     finished := finished w; trace := trace w ++ evs |}.

(** No status line and no termination among the events. *)
Definition quiet (tr : list event) : Prop :=
  Forall (λ e, is_head e = false ∧ is_end e = false) tr.

Definition is_health (req : IncomingMessage) : bool :=
  bool_decide (method req = "GET")
  && (bool_decide (url req = "/api/health") || bool_decide (url req = "/health")).

Definition plan_path (u : string) : bool :=
  bool_decide (u = "/plans") || bool_decide (u = "/api/plans").
Definition script_path (u : string) : bool :=
  bool_decide (u = "/ai-recommend") || bool_decide (u = "/api/recommend").

(** The collaborator a request target selects, if any. *)
Definition route (u : string) : option collaborator :=
  if plan_path u then Some FetchPlans
  else if script_path u then Some GenerateClosingScript
  else None.

(** The request targets of each collaborator. *)
Definition targets (c : collaborator) : list string :=
  match c with
  | FetchPlans => ["/plans"; "/api/plans"]
  | GenerateClosingScript => ["/ai-recommend"; "/api/recommend"]
  end.

Definition is_log (e : event) : bool :=
  match e with EvConsoleError _ => true | _ => false end.

(** Only collaborator calls and log lines among the events. *)
Definition backstage (tr : list event) : Prop :=
  Forall (λ e, is_call e || is_log e = true) tr.

(** A non-204 answer as the specification describes it: a JSON content
    type and a content length equal to the byte length of the body. *)
Definition carries_json_headers (block : gmap string header_value)
    (body : option string) : Prop :=
  header "Content-Type" block = Some (HStr "application/json")
  ∧ ∃ text, body = Some text
            ∧ header "Content-Length" block = Some (HNum (String.length text)).

(** A 204 answer: neither header, no body. *)
Definition carries_nothing (block : gmap string header_value)
    (body : option string) : Prop :=
  header "Content-Type" block = None
  ∧ header "Content-Length" block = None
  ∧ body = None.

(** The health answer as the listener writes it: the content type only. *)
Definition carries_type_only (block : gmap string header_value)
    (body : option string) : Prop :=
  header "Content-Type" block = Some (HStr "application/json")
  ∧ header "Content-Length" block = None
  ∧ body = Some status_ok_text.

(** The content headers of every answer, as the specification states
    them. *)
Definition content_headers_as_specified (r : completion unit * world) : Prop :=
  ∀ before status block body,
    r = replied before status block body →
    if bool_decide (status = 204) then carries_nothing block body
    else carries_json_headers block body.

(** An origin that ends like a Sunfire origin and is not one. *)
Definition crafted_origin : string :=
  "http://evil.example/https://sunfirematrix.com".

(** The answer [sendJson] writes for an error message, after [before]. *)
Definition error_reply (before : list event) (status : nat) (message : string)
    (t : gmap string header_value) : completion unit * world :=
  replied before status (json_block (error_text message) t)
    (Some (error_text message)).

End Observe.

(** ** The routing table

    The listener read as a table: which answer each method, target and
    body gets, with the collaborator calls and log lines that come before
    it.  [Router.resolve] is the table, [Router.render] puts a verdict
    behind the headers of [setCors]. *)

Module Router.
Import Js Http Gateway Observe.

(** The content headers of a block: none (preflight), the content type
    (health), or the content type and the length of a text ([sendJson]). *)
Inductive framing : Type :=
| Bare
| TypeOnly
| Framed (text : string).

Definition block_of (f : framing) (t : gmap string header_value)
    : gmap string header_value :=
  match f with
  | Bare => t
  | TypeOnly => store "Content-Type" (HStr "application/json") t
  | Framed text => json_block text t
  end.

Record verdict : Type := Verdict {
  backstage_events : list event;
  status : nat;
  frame : framing;
  body : option string
}.

Definition error_verdict (evs : list event) (st : nat) (message : string) : verdict :=
  {| backstage_events := evs; status := st;
     frame := Framed (error_text message);
     body := Some (error_text message) |}.

(** The precedence of the listener: preflight, health, other methods,
    then for a POST the parse, the route, the collaborator and the
    serialization of what it resolved with. *)
Definition resolve `{Platform} (m u text : string) : verdict :=
  if bool_decide (m = "OPTIONS") then
    {| backstage_events := []; status := 204; frame := Bare; body := None |}
  else if bool_decide (m = "GET")
          && (bool_decide (u = "/api/health") || bool_decide (u = "/health")) then
    {| backstage_events := []; status := 200; frame := TypeOnly;
       body := Some status_ok_text |}
  else if negb (bool_decide (m = "POST")) then error_verdict [] 404 "Not found"
  else
    match JSON_parse (or_string text "{}") with
    | None => error_verdict [] 400 "Invalid JSON"
    | Some payload =>
        match route u with
        | None => error_verdict [] 404 "Not found"
        | Some c =>
            match invoke c payload with
            | Rejected reason =>
                error_verdict [EvCall c payload; EvConsoleError (Thrown reason)]
                  500 "Internal server error"
            | Fulfilled v =>
                match JSON_stringify v with
                | Normal (Some json) =>
                    {| backstage_events := [EvCall c payload]; status := 200;
                       frame := Framed json; body := Some json |}
                | Normal None =>
                    error_verdict [EvCall c payload; EvConsoleError TypeError]
                      500 "Internal server error"
                | Throw e =>
                    error_verdict [EvCall c payload; EvConsoleError e]
                      500 "Internal server error"
                end
            end
        end
    end.

Definition render (o : string) (v : verdict) : completion unit * world :=
  replied (cors_events o ++ backstage_events v) (status v)
    (block_of (frame v) (cors_table o)) (body v).

(** What a run shows apart from the headers: how it completed, the status
    lines, the bodies, the collaborator calls and the log lines. *)
Definition statuses (tr : list event) : list nat :=
  omap (λ e, match e with EvHead st _ => Some st | _ => None end) tr.
Definition bodies (tr : list event) : list (option string) :=
  omap (λ e, match e with EvEnd b => Some b | _ => None end) tr.
Definition calls (tr : list event) : list (collaborator * value) :=
  omap (λ e, match e with EvCall c p => Some (c, p) | _ => None end) tr.
Definition logs (tr : list event) : list exn :=
  omap (λ e, match e with EvConsoleError x => Some x | _ => None end) tr.

Definition digest (r : completion unit * world)
    : completion unit * list nat * list (option string)
      * list (collaborator * value) * list exn :=
  (r.1, statuses (trace r.2), bodies (trace r.2), calls (trace r.2),
   logs (trace r.2)).

(** A request with another [Origin] header, and one with another body. *)
Definition with_origin (req : IncomingMessage) (o : option string) : IncomingMessage :=
  {| method := method req; url := url req; origin := o; chunks := chunks req |}.
Definition with_chunks (req : IncomingMessage) (cs : list string) : IncomingMessage :=
  {| method := method req; url := url req; origin := origin req; chunks := cs |}.

(** The origins the condition of [setCors] lets through: the localhost and
    extension shapes for the whole string, the Sunfire shape for any
    suffix of it. *)
Definition reflected (o : string) : Prop :=
  (∃ pre w, o = pre +:+ w ∧ Origin.sunfire_shape w)
  ∨ Origin.local_shape o ∨ Origin.extension_shape o.

(** A response whose head is already out, with [tr] behind it. *)
Definition head_out (t : gmap string header_value) (fin : bool) (tr : list event)
    : world :=
  {| outHeaders := t; headersSent := true; finished := fin; trace := tr |}.

End Router.

(** A second platform: the plan service resolves with [undefined], the
    script service with an object that holds a [BigInt]. *)
Module Fixture.
Import Js Http Gateway.

Definition platform : Platform :=
  {| JSON_parse := Sample.parse;
     fetchPlans := λ _, Fulfilled Undefined;
     generateClosingScript := λ _, Fulfilled (Object [("total", BigInt 3)]) |}.

End Fixture.

(** ** The extension: the API base, the layout store and the HUD switch

    The content script and the options page, as far as they compute: the
    base URL read from [chrome.storage.sync] and written by the options
    page, the [save]/[load] helpers over [localStorage], and the state the
    toolbar toggle, the close button and the tabs drive.  The styling of
    the panel and its drag and resize handlers are not part of it. *)

Module Extension.
Import RegExp.

(** The default base, the same literal in both scripts. *)
Definition DEFAULT_API_BASE : string :=
  "https://icarusmai5-fkh7gge6edh6aabj.centralus-01.azurewebsites.net".

(** [s.replace(/r$/, '')]: the leftmost match of a pattern that has to end
    at the end of the input runs up to the end, so what is left is what
    stands before it; without a match the string is unchanged. *)
Fixpoint replace_end (r : regex) (s : string) : string :=
  if matches r s then EmptyString
  else match s with
       | EmptyString => EmptyString
       | String c s' => String c (replace_end r s')
       end.

(** [s.replace(/\/$/, '')] *)
Definition strip_slash (s : string) : string := replace_end (chr "/"%char) s.

(** What the scripts take from the browser: [String.prototype.trim]. *)
Class Browser : Type := {
  trim : string → string
}.

(** [chrome.storage.sync.get({ apiBase: DEFAULT_API_BASE }, cb)]: the
    stored value, or the default when the key is not there.  The area
    holds strings, which is all the options page stores. *)
Definition stored_apiBase (area : gmap string string) : string :=
  default DEFAULT_API_BASE (area !! "apiBase").

(** [getApiBase] of the content script. *)
Definition getApiBase (area : gmap string string) : string :=
  strip_slash (Js.or_string (stored_apiBase area) DEFAULT_API_BASE).

(** The options page: its input and its message line. *)
Record OptionsPage : Type := {
  input_value : string;
  message : string
}.

(** The page loads: the input shows the stored base or the default. *)
Definition options_load (area : gmap string string) (pg : OptionsPage) : OptionsPage :=
  {| input_value := Js.or_string (stored_apiBase area) DEFAULT_API_BASE;
     message := message pg |}.

(** A click on Save.  [accepted] tells whether the browser takes the
    write; the callback runs and shows "Saved" either way. *)
Definition options_save `{Browser} (accepted : bool) (pg : OptionsPage)
    (area : gmap string string) : OptionsPage * gmap string string :=
  let v := strip_slash (trim (input_value pg)) in
  ({| input_value := input_value pg; message := "Saved" |},
   if accepted then <["apiBase" := v]> area else area).

(** [localStorage]: when it is not [readable] every access throws; a write
    the browser does not accept (quota) throws as well. *)
Record LocalStorage : Type := {
  readable : bool;
  accepts : string → string → bool;
  items : gmap string string
}.

(** [save(key, value)]: [setItem] in a [try] whose [catch] does nothing. *)
Definition save (key value : string) (ls : LocalStorage) : LocalStorage :=
  if readable ls && accepts ls key value
  then {| readable := readable ls; accepts := accepts ls;
          items := <[key := value]> (items ls) |}
  else ls.

(** [load(key, fallback)]: [getItem], the fallback for [null] and in the
    [catch]. *)
Definition load (key fallback : string) (ls : LocalStorage) : string :=
  if readable ls
  then match items ls !! key with
       | Some v => v
       | None => fallback
       end
  else fallback.

(** The panel of a mounted HUD: the tab that has the class [active] and
    the [display] of the three views, in the order of [views]. *)
Record Panel : Type := {
  active_tab : string;
  display : list (string * string)
}.

(** The panel as [innerHTML] builds it. *)
Definition initial_panel : Panel :=
  {| active_tab := "checklist";
     display := [("checklist", EmptyString); ("rebuttals", "none"); ("drugs", "none")] |}.

(** The page and the closure of the content script: whether the script
    has run ([window.__maiHudInjected]), how many message listeners it
    registered, [HOST_CONTAINER], [STATE], the hosts attached to the
    document with their panels, and the next element to be created. *)
Record Hud : Type := {
  injected : bool;
  listeners : nat;
  HOST_CONTAINER : option nat;
  mounted : bool;
  activeTab : string;
  hosts : list (nat * Panel);
  next_host : nat
}.

Definition page_loaded : Hud :=
  {| injected := false; listeners := 0; HOST_CONTAINER := None; mounted := false;
     activeTab := "checklist"; hosts := []; next_host := 0 |}.

(** The content script runs: a second run returns at the guard. *)
Definition inject (h : Hud) : Hud :=
  if injected h then h
  else {| injected := true; listeners := S (listeners h);
          HOST_CONTAINER := HOST_CONTAINER h; mounted := mounted h;
          activeTab := activeTab h; hosts := hosts h; next_host := next_host h |}.

Definition unmountHud (h : Hud) : Hud :=
  {| injected := injected h; listeners := listeners h;
     HOST_CONTAINER := None; mounted := false; activeTab := activeTab h;
     hosts := match HOST_CONTAINER h with
              | Some c => filter (λ hp, hp.1 ≠ c) (hosts h)
              | None => hosts h
              end;
     next_host := next_host h |}.

Definition mountHud (h : Hud) : Hud :=
  if mounted h then h
  else {| injected := injected h; listeners := listeners h;
          HOST_CONTAINER := Some (next_host h); mounted := true;
          activeTab := activeTab h;
          hosts := hosts h ++ [(next_host h, initial_panel)];
          next_host := S (next_host h) |}.

(** The listener of [chrome.runtime.onMessage]. *)
Definition onMessage (type : option string) (h : Hud) : Hud :=
  match type with
  | Some t =>
      if bool_decide (t = "MAI_TOGGLE_HUD")
      then if mounted h then unmountHud h else mountHud h
      else h
  | None => h
  end.

(** A click on a tab of the panel of host [c]. *)
Definition click_tab (key : string) (p : Panel) : Panel :=
  {| active_tab := key;
     display := map (λ kd, (kd.1, if bool_decide (kd.1 = key)
                                  then EmptyString else "none")) (display p) |}.

Definition onTabClick (c : nat) (key : string) (h : Hud) : Hud :=
  {| injected := injected h; listeners := listeners h;
     HOST_CONTAINER := HOST_CONTAINER h; mounted := mounted h;
     activeTab := key;
     hosts := map (λ hp, if bool_decide (hp.1 = c)
                         then (hp.1, click_tab key hp.2) else hp) (hosts h);
     next_host := next_host h |}.

(** What can happen to the page.  A message goes to every registered
    listener; a click needs its button, so it needs the host to be in the
    document, and a tab carries one of the three keys. *)
Inductive action : Type :=
| ScriptRuns
| Message (type : option string)
| CloseClick (c : nat)
| TabClick (c : nat) (key : string).

Definition attached (c : nat) (h : Hud) : bool :=
  bool_decide (c ∈ (hosts h).*1).

Definition tab_keys : list string := ["checklist"; "rebuttals"; "drugs"].

Definition step (h : Hud) (a : action) : Hud :=
  match a with
  | ScriptRuns => inject h
  | Message type => Nat.iter (listeners h) (onMessage type) h
  | CloseClick c => if attached c h then unmountHud h else h
  | TabClick c key =>
      if attached c h && bool_decide (key ∈ tab_keys) then onTabClick c key h else h
  end.

Definition after (acts : list action) : Hud := foldl step page_loaded acts.

(** The views a panel shows: those whose [display] is not [none]. *)
Definition shown (p : Panel) : list string :=
  (filter (λ kd, kd.2 ≠ "none") (display p)).*1.

(** A panel in order: the three views in their places and exactly the
    view of the active tab shown. *)
Definition panel_ok (p : Panel) : Prop :=
  (display p).*1 = tab_keys
  ∧ active_tab p ∈ tab_keys
  ∧ shown p = [active_tab p].

(** The page in order: one listener once the script has run, and a host
    in the document exactly when the HUD is mounted, which then is
    [HOST_CONTAINER] and the only one. *)
Definition hud_ok (h : Hud) : Prop :=
  listeners h = (if injected h then 1 else 0)
  ∧ match HOST_CONTAINER h with
    | Some c =>
        mounted h = true ∧ injected h = true ∧ (c < next_host h)%nat
        ∧ ∃ p, hosts h = [(c, p)] ∧ panel_ok p
    | None => mounted h = false ∧ hosts h = []
    end.

Definition toggle : action := Message (Some "MAI_TOGGLE_HUD").

(** A browser for concrete runs: [trim] on ASCII white space, which is
    [String.prototype.trim] on ASCII text. *)
Definition is_blank (c : ascii) : bool :=
  let n := nat_of_ascii c in
  bool_decide (n = 32) || ((9 <=? n) && (n <=? 13))%nat.

Fixpoint trim_start (s : string) : string :=
  match s with
  | String c s' => if is_blank c then trim_start s' else s
  | EmptyString => s
  end.

Fixpoint trim_end (s : string) : string :=
  match s with
  | EmptyString => EmptyString
  | String c s' =>
      match trim_end s' with
      | EmptyString => if is_blank c then EmptyString else String c EmptyString
      | rest => String c rest
      end
  end.

Definition ascii_browser : Browser :=
  {| trim := λ s, trim_end (trim_start s) |}.

Definition roomy (m : gmap string string) : LocalStorage :=
  {| readable := true; accepts := λ _ _, true; items := m |}.

End Extension.

(** ** The response as the client gets it

    [res.end(data)] hands the data to Node; whether it is sent depends on
    the request and the status: a response to a HEAD request and a
    response with a status 1xx, 204 or 304 have no body, and the data is
    dropped ([_hasBody] of the response). *)

Module Wire.
Import Js Http Gateway Router.

Definition hasBody (m : string) (st : nat) : bool :=
  negb (bool_decide (m = "HEAD") || bool_decide (st = 204) || bool_decide (st = 304)
        || ((100 <=? st) && (st <=? 199))%nat).

Definition sent (m : string) (st : nat) (data : option string) : option string :=
  if hasBody m st then data else None.

(** The status and the body sent, for a run with one status line and one
    end. *)
Definition response (req : IncomingMessage) (r : completion unit * world)
    : option (nat * option string) :=
  match statuses (trace r.2), bodies (trace r.2) with
  | [st], [data] => Some (st, sent (method req) st data)
  | _, _ => None
  end.

(** The answer the specification gives every method but OPTIONS and POST
    outside the health route: 404 with the body [{"error":"Not found"}]. *)
Definition not_found_as_specified (req : IncomingMessage)
    (r : completion unit * world) : Prop :=
  response req r = Some (404, Some (Observe.error_text "Not found")).

Definition head_request : IncomingMessage :=
  {| method := "HEAD"; url := "/plans"; origin := None; chunks := [] |}.

End Wire.

(** ** The matcher decides the words of a pattern *)

Section RegExpFacts.
Import RegExp.

Lemma append_nil_l (s : string) : EmptyString +:+ s = s.
Proof. reflexivity. Qed.

Lemma append_cons (c : ascii) (s t : string) :
  String c s +:+ t = String c (s +:+ t).
Proof. reflexivity. Qed.

Lemma lang_empty_nullable r s : lang r s → s = EmptyString → nullable r = true.
Proof.
  induction 1 as [ | | r1 r2 s1 s2 _ IH1 _ IH2 | r1 r2 s _ IH | r1 r2 s _ IH | | ];
    intros E; simpl; try done.
  - destruct s1; [ | discriminate E]. rewrite append_nil_l in E.
    rewrite IH1, IH2; done.
  - rewrite IH; done.
  - rewrite IH; [ | done]. apply orb_true_r.
Qed.

Lemma nullable_lang_empty r : nullable r = true → lang r EmptyString.
Proof.
  induction r as [ | | p | r1 IH1 r2 IH2 | r1 IH1 r2 IH2 | r IH]; simpl; intros N;
    try discriminate.
  - constructor.
  - apply andb_true_iff in N as [N1 N2].
    change EmptyString with (EmptyString +:+ EmptyString). constructor; auto.
  - apply orb_true_iff in N as [N | N]; [apply lang_alt_l | apply lang_alt_r]; auto.
  - apply lang_star_nil.
Qed.

Lemma deriv_sound c r : ∀ s, lang (deriv c r) s → lang r (String c s).
Proof.
  induction r as [ | | p | r1 IH1 r2 IH2 | r1 IH1 r2 IH2 | r IH]; simpl; intros s L.
  - inversion L.
  - inversion L.
  - destruct (p c) eqn:P; inversion L; subst. by constructor.
  - assert (C : ∀ t, lang (Cat (deriv c r1) r2) t → lang (Cat r1 r2) (String c t)).
    { intros t Lt. inversion Lt as [ | | ? ? s1 s2 La Lb | | | | ]; subst.
      change (String c (s1 +:+ s2)) with (String c s1 +:+ s2). constructor; auto. }
    destruct (nullable r1) eqn:N; [ | by apply C].
    inversion L; subst; [by apply C | ].
    change (String c s) with (EmptyString +:+ String c s).
    constructor; [by apply nullable_lang_empty | auto].
  - inversion L; subst; [apply lang_alt_l | apply lang_alt_r]; auto.
  - inversion L as [ | | ? ? s1 s2 La Lb | | | | ]; subst.
    change (String c (s1 +:+ s2)) with (String c s1 +:+ s2).
    apply lang_star_cons; auto.
Qed.

Lemma deriv_complete r w :
  lang r w → ∀ c s, w = String c s → lang (deriv c r) s.
Proof.
  induction 1 as [ | p a Pa | r1 r2 s1 s2 L1 IH1 L2 IH2 | r1 r2 w L IH | r1 r2 w L IH
                 | r | r s1 s2 L1 IH1 L2 IH2]; intros c s E; simpl.
  - discriminate E.
  - injection E as -> <-. rewrite Pa. constructor.
  - destruct s1 as [ | a s1']; rewrite ?append_nil_l, ?append_cons in E.
    + subst s2. rewrite (lang_empty_nullable _ _ L1 eq_refl).
      apply lang_alt_r. by apply IH2.
    + injection E as -> <-.
      assert (lang (Cat (deriv c r1) r2) (s1' +:+ s2)) by (constructor; auto).
      destruct (nullable r1); [by apply lang_alt_l | done].
  - apply lang_alt_l. by apply IH.
  - apply lang_alt_r. by apply IH.
  - discriminate E.
  - destruct s1 as [ | a s1']; rewrite ?append_nil_l, ?append_cons in E.
    + by apply IH2.
    + injection E as -> <-. constructor; auto.
Qed.

(** The derivative matcher accepts exactly the words of the pattern. *)
Lemma matches_lang r s : matches r s = true ↔ lang r s.
Proof.
  revert r. induction s as [ | c s IH]; intros r; simpl.
  - split; [apply nullable_lang_empty | intros L; by eapply lang_empty_nullable].
  - rewrite IH. split; [apply deriv_sound | intros L; by eapply deriv_complete].
Qed.

(** A search that is anchored at the end only succeeds exactly when some
    suffix of the input is a word of the pattern. *)
Lemma test_end_anchored_suffix r s :
  test_end_anchored r s = true ↔ ∃ pre w, s = pre +:+ w ∧ matches r w = true.
Proof.
  induction s as [ | c s IH]; simpl.
  - rewrite orb_false_r. split.
    + intros Hm. by exists EmptyString, EmptyString.
    + intros (pre & w & E & Hm). destruct pre; [ | discriminate E].
      rewrite append_nil_l in E. by subst w.
  - rewrite orb_true_iff, IH. split.
    + intros [Hm | (pre & w & -> & Hm)].
      * by exists EmptyString, (String c s).
      * by exists (String c pre), w.
    + intros (pre & w & E & Hm).
      destruct pre as [ | a pre]; rewrite ?append_nil_l, ?append_cons in E.
      * left. by subst w.
      * right. injection E as -> ->. by exists pre, w.
Qed.

Lemma test_anchored_test_end r s :
  test_anchored r s = true → test_end_anchored r s = true.
Proof.
  unfold test_anchored. intros Hm. apply test_end_anchored_suffix.
  by exists EmptyString, s.
Qed.

Lemma append_nil_r (s : string) : s +:+ EmptyString = s.
Proof. induction s as [ | c s IH]; [done | ]. by rewrite append_cons, IH. Qed.

Lemma append_assoc (a b c : string) : (a +:+ b) +:+ c = a +:+ (b +:+ c).
Proof. induction a as [ | x a IH]; [done | ]. by rewrite !append_cons, IH. Qed.

Lemma lang_eps_inv w : lang Eps w ↔ w = EmptyString.
Proof. split; [by inversion 1 | intros ->; constructor]. Qed.

Lemma lang_class_inv p w :
  lang (Class p) w ↔ ∃ c, w = String c EmptyString ∧ p c = true.
Proof.
  split.
  - inversion 1; subst. eauto.
  - intros (c & -> & Hp). by constructor.
Qed.

Lemma lang_cat_inv a b w :
  lang (Cat a b) w ↔ ∃ w1 w2, w = w1 +:+ w2 ∧ lang a w1 ∧ lang b w2.
Proof.
  split.
  - inversion 1; subst. eauto.
  - intros (w1 & w2 & -> & H1 & H2). by constructor.
Qed.

Lemma lang_alt_inv a b w : lang (Alt a b) w ↔ lang a w ∨ lang b w.
Proof.
  split.
  - inversion 1; subst; auto.
  - intros [Ha | Hb]; [by apply lang_alt_l | by apply lang_alt_r].
Qed.

(** The words of an iteration are the concatenations of words of its
    body. *)
Lemma lang_star_inv r w :
  lang (Star r) w ↔ ∃ ws, Forall (lang r) ws ∧ w = flatten ws.
Proof.
  split.
  - intros L. remember (Star r) as sr eqn:E.
    induction L as [ | | | | | r' | r' s1 s2 L1 _ L2 IH2]; try discriminate E.
    + by exists [].
    + injection E as ->. destruct (IH2 eq_refl) as (ws & Hws & ->).
      exists (s1 :: ws). split; [by constructor | done].
  - intros (ws & Hws & ->). induction Hws as [ | x ws Hx _ IH]; simpl.
    + apply lang_star_nil.
    + by apply lang_star_cons.
Qed.

End RegExpFacts.

(** ** The origin patterns, spelled out *)

Section PatternShapes.
Import RegExp Origin.

Lemma lang_lit_i s : ∀ w, lang (lit_i s) w ↔ same_fold w s = true.
Proof.
  induction s as [ | c s IH]; intros w; simpl.
  - rewrite lang_eps_inv. by destruct w.
  - rewrite lang_cat_inv. unfold chr_i. split.
    + intros (w1 & w2 & -> & H1 & H2). apply lang_class_inv in H1 as (x & -> & Hx).
      rewrite ?append_cons, ?append_nil_l. simpl. rewrite Hx. by apply IH.
    + destruct w as [ | x w]; simpl; [done | ].
      intros [Hx Hw]%andb_true_iff. exists (String x EmptyString), w.
      split; [done | ]. split; [by constructor | by apply IH].
Qed.

Lemma lang_star_class p w : lang (Star (Class p)) w ↔ all_chars p w = true.
Proof.
  rewrite lang_star_inv. split.
  - intros (ws & Hws & ->). induction Hws as [ | x ws Hx _ IH]; [done | ].
    apply lang_class_inv in Hx as (c & -> & Hc). simpl.
    rewrite ?append_cons, ?append_nil_l. simpl. by rewrite Hc.
  - induction w as [ | c w IH]; simpl.
    + intros _. by exists [].
    + intros [Hc Hw]%andb_true_iff. destruct (IH Hw) as (ws & Hws & ->).
      exists (String c EmptyString :: ws). split; [ | done].
      constructor; [by constructor | done].
Qed.

Lemma lang_plus_class p w :
  lang (Plus (Class p)) w ↔ w ≠ EmptyString ∧ all_chars p w = true.
Proof.
  unfold Plus. rewrite lang_cat_inv. split.
  - intros (w1 & w2 & -> & H1 & H2). apply lang_class_inv in H1 as (c & -> & Hc).
    apply lang_star_class in H2. rewrite ?append_cons, ?append_nil_l.
    split; [done | ]. simpl. by rewrite Hc.
  - intros [Hn Hw]. destruct w as [ | c w]; [done | ]. simpl in Hw.
    apply andb_true_iff in Hw as [Hc Hw].
    exists (String c EmptyString), w. split; [done | ].
    split; [by constructor | by apply lang_star_class].
Qed.

Lemma lang_labels w :
  lang (Star (Cat (Plus not_dot) (chr "."%char))) w
  ↔ ∃ labels, Forall is_label labels ∧ w = dotted labels.
Proof.
  rewrite lang_star_inv. split.
  - intros (ws & Hws & ->). induction Hws as [ | x ws Hx _ IH].
    + by exists [].
    + destruct IH as (labels & Hl & Hd).
      apply lang_cat_inv in Hx as (l & d & -> & Hlab & Hdot).
      apply lang_plus_class in Hlab.
      apply lang_class_inv in Hdot as (c & -> & Hc).
      apply bool_decide_eq_true_1 in Hc as ->.
      exists (l :: labels). split; [by constructor | ].
      simpl. by rewrite Hd, append_assoc.
  - intros (labels & Hl & ->). induction Hl as [ | l labels Hlab _ IH].
    + by exists [].
    + destruct IH as (ws & Hws & Hd). exists ((l +:+ ".") :: ws).
      split; [ | simpl; by rewrite Hd, append_assoc].
      constructor; [ | done]. apply lang_cat_inv. exists l, ".".
      split; [done | ]. split; [by apply lang_plus_class | ].
      apply lang_class_inv. by exists "."%char.
Qed.

(** The Sunfire pattern, matched against the whole string, accepts the
    Sunfire origins and nothing else. *)
Lemma spec_isSunfire_shape o : spec_isSunfire o = true ↔ sunfire_shape o.
Proof.
  unfold spec_isSunfire, test_anchored, sunfire_pattern, sunfire_shape.
  rewrite matches_lang, lang_cat_inv. split.
  - intros (scheme & rest & -> & Hs & Hr).
    apply lang_cat_inv in Hr as (mid & apex & -> & Hm & Ha).
    apply lang_labels in Hm as (labels & Hl & ->).
    exists scheme, labels, apex. split; [done | ].
    split; [by apply lang_lit_i | ]. split; [done | by apply lang_lit_i].
  - intros (scheme & labels & apex & -> & Hs & Hl & Ha).
    exists scheme, (dotted labels +:+ apex). split; [done | ].
    split; [by apply lang_lit_i | ]. apply lang_cat_inv.
    exists (dotted labels), apex. split; [done | ].
    split; [apply lang_labels; eauto | by apply lang_lit_i].
Qed.

(** The localhost pattern accepts [http://localhost] with an optional
    port and nothing else. *)
Lemma isLocal_shape o : isLocal o = true ↔ local_shape o.
Proof.
  unfold isLocal, test_anchored, local_pattern, local_shape, Opt.
  rewrite matches_lang, lang_cat_inv. split.
  - intros (base & port & -> & Hb & Hp). exists base, port.
    split; [done | ]. split; [by apply lang_lit_i | ].
    apply lang_alt_inv in Hp as [Hp | Hp].
    + right. apply lang_cat_inv in Hp as (colon & digits & -> & Hc & Hd).
      apply lang_class_inv in Hc as (c & -> & Hc).
      apply bool_decide_eq_true_1 in Hc as ->.
      apply lang_plus_class in Hd as [Hn Hd]. by exists digits.
    + left. by apply lang_eps_inv.
  - intros (base & port & -> & Hb & Hp). exists base, port.
    split; [done | ]. split; [by apply lang_lit_i | ].
    apply lang_alt_inv. destruct Hp as [-> | (digits & -> & Hn & Hd)].
    + right. constructor.
    + left. apply lang_cat_inv. exists ":", digits. split; [done | ].
      split; [apply lang_class_inv; by exists ":"%char | by apply lang_plus_class].
Qed.

Lemma prefix_append p : ∀ s, String.prefix p s = true ↔ ∃ rest, s = p +:+ rest.
Proof.
  induction p as [ | c p IH]; intros s.
  - split; [intros _; by exists s | intros _; by destruct s].
  - destruct s as [ | x s]; simpl.
    + split; [done | intros (rest & E); discriminate E].
    + destruct (ascii_dec c x) as [-> | Hne].
      * rewrite IH. split; intros (rest & E); exists rest.
        -- by rewrite E.
        -- rewrite append_cons in E. by injection E.
      * split; [done | ]. intros (rest & E). rewrite append_cons in E.
        injection E as -> _. by destruct Hne.
Qed.

Lemma isExtension_shape o : isExtension o = true ↔ extension_shape o.
Proof. apply prefix_append. Qed.

(** What [setCors] tests for Sunfire: some suffix of the origin is a
    Sunfire origin. *)
Lemma isSunfire_shape o :
  isSunfire o = true ↔ ∃ pre w, o = pre +:+ w ∧ sunfire_shape w.
Proof.
  unfold isSunfire. rewrite test_end_anchored_suffix.
  split; intros (pre & w & -> & Hw); exists pre, w; split; try done;
    by apply spec_isSunfire_shape.
Qed.

(** The whole-string classifier accepts exactly the approved origins. *)
Lemma spec_echoes_approved o : spec_echoes o = true ↔ approved o.
Proof.
  unfold spec_echoes, approved.
  rewrite !orb_true_iff, spec_isSunfire_shape, isLocal_shape, isExtension_shape.
  tauto.
Qed.

(** The condition of [setCors] accepts the approved origins and every
    string with a Sunfire origin at its end. *)
Lemma echoes_shape o :
  echoes o = true
  ↔ (∃ pre w, o = pre +:+ w ∧ sunfire_shape w) ∨ local_shape o ∨ extension_shape o.
Proof.
  unfold echoes.
  rewrite !orb_true_iff, isSunfire_shape, isLocal_shape, isExtension_shape.
  tauto.
Qed.

End PatternShapes.

(** ** Steps of the listener *)

Section GatewayFacts.
Import Js Http Gateway Observe.
Context `{Platform}.

(** The [data] callbacks leave the concatenation of the chunks in [body]. *)
Lemma foldl_onData cs : ∀ acc, foldl onData acc cs = acc +:+ RegExp.flatten cs.
Proof.
  induction cs as [ | c cs IH]; intros acc; simpl.
  - by rewrite append_nil_r.
  - rewrite IH. unfold onData. by rewrite append_assoc.
Qed.

Lemma body_of_chunks cs : foldl onData EmptyString cs = RegExp.flatten cs.
Proof. by rewrite foldl_onData. Qed.

Lemma serialize_not_found :
  JSON_stringify (error_object "Not found") = Normal (Some (error_text "Not found")).
Proof. reflexivity. Qed.

Lemma serialize_invalid_json :
  JSON_stringify (error_object "Invalid JSON")
  = Normal (Some (error_text "Invalid JSON")).
Proof. reflexivity. Qed.

Lemma serialize_internal_error :
  JSON_stringify (error_object "Internal server error")
  = Normal (Some (error_text "Internal server error")).
Proof. reflexivity. Qed.

Lemma serialize_status_ok :
  JSON_stringify status_ok = Normal (Some status_ok_text).
Proof. reflexivity. Qed.

(** [setCors] on a fresh response: five or three headers stored, nothing
    written. *)
Lemma setCors_fresh req : setCors req fresh = (Normal tt, cors_world (origin_of req)).
Proof.
  unfold setCors, cors_world, cors_table, cors_events, decision_table,
    decision_events, Origin.echoes, origin_of.
  destruct (Origin.isSunfire _ || Origin.isLocal _ || Origin.isExtension _);
    reflexivity.
Qed.

(** [sendJson] on a response whose head is not out: one head, one body. *)
Lemma sendJson_text status payload text w :
  JSON_stringify payload = Normal (Some text) →
  headersSent w = false → finished w = false →
  sendJson status payload w
  = (Normal tt,
     answered (json_block text (outHeaders w))
       (trace w ++ [EvHead status (json_block text (outHeaders w));
                    EvEnd (Some text)])).
Proof.
  intros Hs Hh Hf. destruct w as [t hs fin tr]. simpl in Hh, Hf. subst hs fin.
  unfold sendJson, bind, lift. rewrite Hs. simpl.
  unfold answered, json_block, end_. simpl. by rewrite <- app_assoc.
Qed.

(** [sendJson] throws before it writes when the payload has no JSON text. *)
Lemma sendJson_undefined status payload w :
  JSON_stringify payload = Normal None →
  sendJson status payload w = (Throw TypeError, w).
Proof. intros Hs. unfold sendJson, bind, lift. by rewrite Hs. Qed.

Lemma sendJson_throws status payload e w :
  JSON_stringify payload = Throw e →
  sendJson status payload w = (Throw e, w).
Proof. intros Hs. unfold sendJson, bind, lift. by rewrite Hs. Qed.

(** Whatever the payload, [sendJson] either writes one whole answer or
    throws and leaves the response as it was. *)
Lemma sendJson_cases status payload w :
  headersSent w = false → finished w = false →
  (∃ text, JSON_stringify payload = Normal (Some text) ∧
     sendJson status payload w
     = (Normal tt,
        answered (json_block text (outHeaders w))
          (trace w ++ [EvHead status (json_block text (outHeaders w));
                       EvEnd (Some text)])))
  ∨ (∃ e, sendJson status payload w = (Throw e, w)).
Proof.
  intros Hh Hf. destruct (JSON_stringify payload) as [[text | ] | e] eqn:Hs.
  - left. exists text. split; [done | by apply sendJson_text].
  - right. exists TypeError. by apply sendJson_undefined.
  - right. exists e. by apply sendJson_throws.
Qed.

Lemma sendJson_error status message w :
  JSON_stringify (error_object message) = Normal (Some (error_text message)) →
  headersSent w = false → finished w = false →
  sendJson status (error_object message) w
  = error_reply (trace w) status message (outHeaders w).
Proof. intros Hs Hh Hf. by rewrite (sendJson_text _ _ _ _ Hs Hh Hf). Qed.

(** The listener answers an OPTIONS request at once. *)
Lemma listener_options req :
  method req = "OPTIONS" →
  run req
  = replied (cors_events (origin_of req)) 204 (cors_table (origin_of req)) None.
Proof.
  intros Hm. unfold run, serve, requestListener, bind.
  rewrite setCors_fresh, bool_decide_eq_true_2 by done.
  unfold writeHead, end_, replied, answered, ret. simpl.
  by rewrite <- app_assoc.
Qed.

(** The health route writes its head with one header and then the body. *)
Lemma listener_health req :
  method req ≠ "OPTIONS" → is_health req = true →
  run req
  = replied (cors_events (origin_of req)) 200
      (store "Content-Type" (HStr "application/json") (cors_table (origin_of req)))
      (Some status_ok_text).
Proof.
  intros Hm Hh. unfold run, serve, requestListener, bind.
  rewrite setCors_fresh, bool_decide_eq_false_2 by done.
  unfold is_health in Hh. rewrite Hh.
  unfold writeHead, end_, lift, replied, answered, ret. simpl.
  by rewrite <- app_assoc.
Qed.

(** Every other method than POST is answered 404 by the listener. *)
Lemma listener_not_found req :
  method req ≠ "OPTIONS" → is_health req = false → method req ≠ "POST" →
  run req = error_reply (cors_events (origin_of req)) 404 "Not found"
              (cors_table (origin_of req)).
Proof.
  intros Hm Hh Hp. unfold run, serve, requestListener, bind.
  rewrite setCors_fresh, bool_decide_eq_false_2 by done.
  unfold is_health in Hh. rewrite Hh, (bool_decide_eq_false_2 _ Hp).
  cbn [negb]. by rewrite sendJson_error.
Qed.

(** A POST leaves the listener with nothing written; the [end] callback
    runs on the accumulated body. *)
Lemma listener_post req :
  method req = "POST" →
  run req = onEnd req (foldl onData EmptyString (chunks req))
              (cors_world (origin_of req)).
Proof.
  intros Hm. unfold run, serve, requestListener, bind.
  rewrite setCors_fresh, Hm. reflexivity.
Qed.

Lemma onEnd_invalid req body w :
  JSON_parse (or_string body "{}") = None →
  headersSent w = false → finished w = false →
  onEnd req body w = error_reply (trace w) 400 "Invalid JSON" (outHeaders w).
Proof.
  intros Hp Hh Hf. unfold onEnd, bind, try_catch, throw. rewrite Hp.
  by rewrite sendJson_error.
Qed.

Lemma onEnd_parsed req body payload w :
  JSON_parse (or_string body "{}") = Some payload →
  onEnd req body w = dispatch req payload w.
Proof. intros Hp. unfold onEnd, bind, try_catch, ret. by rewrite Hp. Qed.

(** The routes of [dispatch], by the collaborator the target selects. *)
Lemma dispatch_route req payload :
  dispatch req payload
  = try_catch
      (match route (url req) with
       | Some c => (v <- await c payload ;; sendJson 200 v)%js
       | None => sendJson 404 (error_object "Not found")
       end)
      (λ err, (console_error err ;;
               sendJson 500 (error_object "Internal server error"))%js).
Proof.
  unfold dispatch, route, plan_path, script_path.
  destruct (bool_decide (url req = "/plans") || bool_decide (url req = "/api/plans"));
    [done | ].
  by destruct (bool_decide (url req = "/ai-recommend")
               || bool_decide (url req = "/api/recommend")).
Qed.

Lemma dispatch_unrouted req payload w :
  route (url req) = None →
  headersSent w = false → finished w = false →
  dispatch req payload w = error_reply (trace w) 404 "Not found" (outHeaders w).
Proof.
  intros Hr Hh Hf. rewrite dispatch_route, Hr. unfold try_catch.
  by rewrite sendJson_error.
Qed.

(** The [catch] of [dispatch]: the error goes to the log and the 500 is
    written. *)
Lemma catch_internal e w :
  headersSent w = false → finished w = false →
  (console_error e ;; sendJson 500 (error_object "Internal server error"))%js w
  = error_reply (trace w ++ [EvConsoleError e]) 500 "Internal server error"
      (outHeaders w).
Proof.
  intros Hh Hf. destruct w as [t hs fin tr]. simpl in *. subst.
  unfold bind, console_error, emit. simpl. by rewrite sendJson_error.
Qed.

(** The [await] of a route: the call is made, then its outcome decides. *)
Lemma await_rejected c payload reason w :
  invoke c payload = Rejected reason →
  (v <- await c payload ;; sendJson 200 v)%js w
  = (Throw (Thrown reason), later w [EvCall c payload]).
Proof. intros Hi. unfold await, bind, emit, throw. by rewrite Hi. Qed.

Lemma await_fulfilled c payload v w :
  invoke c payload = Fulfilled v →
  (v <- await c payload ;; sendJson 200 v)%js w
  = sendJson 200 v (later w [EvCall c payload]).
Proof. intros Hi. unfold await, bind, emit, ret. by rewrite Hi. Qed.

Lemma dispatch_rejected req payload c reason w :
  route (url req) = Some c → invoke c payload = Rejected reason →
  headersSent w = false → finished w = false →
  dispatch req payload w
  = error_reply (trace w ++ [EvCall c payload; EvConsoleError (Thrown reason)])
      500 "Internal server error" (outHeaders w).
Proof.
  intros Hr Hi Hh Hf. rewrite dispatch_route, Hr. unfold try_catch.
  rewrite (await_rejected _ _ _ _ Hi), catch_internal by done.
  simpl. by rewrite <- app_assoc.
Qed.

Lemma dispatch_fulfilled req payload c v text w :
  route (url req) = Some c → invoke c payload = Fulfilled v →
  JSON_stringify v = Normal (Some text) →
  headersSent w = false → finished w = false →
  dispatch req payload w
  = replied (trace w ++ [EvCall c payload]) 200 (json_block text (outHeaders w))
      (Some text).
Proof.
  intros Hr Hi Hs Hh Hf. rewrite dispatch_route, Hr. unfold try_catch.
  by rewrite (await_fulfilled _ _ _ _ Hi), (sendJson_text _ _ _ _ Hs).
Qed.

(** A result that [JSON.stringify] cannot turn into text ends in the
    [catch] as well, before anything is written. *)
Lemma dispatch_unserializable req payload c v w :
  route (url req) = Some c → invoke c payload = Fulfilled v →
  (∀ text, JSON_stringify v ≠ Normal (Some text)) →
  headersSent w = false → finished w = false →
  ∃ e, dispatch req payload w
       = error_reply (trace w ++ [EvCall c payload; EvConsoleError e])
           500 "Internal server error" (outHeaders w).
Proof.
  intros Hr Hi Hs Hh Hf. rewrite dispatch_route, Hr.
  destruct (sendJson_cases 200 v (later w [EvCall c payload]))
    as [(text & Ht & _) | (e & He)]; [done | done | by destruct (Hs text) | ].
  exists e. unfold try_catch.
  rewrite (await_fulfilled _ _ _ _ Hi), He, catch_internal by done.
  simpl. by rewrite <- app_assoc.
Qed.

(** *** Headers of the blocks the listener writes *)

Lemma header_store_eq name v t : header name (store name v t) = Some v.
Proof. unfold header, store. apply lookup_insert_eq. Qed.

Lemma header_store_ne name name' v t :
  lower_name name' ≠ lower_name name →
  header name (store name' v t) = header name t.
Proof. intros Hne. unfold header, store. by apply lookup_insert_ne. Qed.

Local Ltac header_lookup :=
  repeat first
    [ rewrite header_store_eq
    | rewrite header_store_ne by (vm_compute; discriminate) ];
  try reflexivity.

Lemma cors_table_methods o :
  header "Access-Control-Allow-Methods" (cors_table o)
  = Some (HStr "GET, POST, OPTIONS").
Proof. unfold cors_table. by header_lookup. Qed.

Lemma cors_table_headers o :
  header "Access-Control-Allow-Headers" (cors_table o)
  = Some (HStr "Content-Type, Authorization").
Proof. unfold cors_table. by header_lookup. Qed.

Lemma cors_table_max_age o :
  header "Access-Control-Max-Age" (cors_table o) = Some (HStr "86400").
Proof. unfold cors_table. by header_lookup. Qed.

Lemma cors_table_allow_origin o :
  header "Access-Control-Allow-Origin" (cors_table o)
  = if Origin.echoes o then Some (HStr o) else None.
Proof.
  unfold cors_table, decision_table. header_lookup.
  destruct (Origin.echoes o); by header_lookup.
Qed.

Lemma cors_table_vary o :
  header "Vary" (cors_table o)
  = if Origin.echoes o then Some (HStr "Origin") else None.
Proof.
  unfold cors_table, decision_table. header_lookup.
  destruct (Origin.echoes o); by header_lookup.
Qed.

Lemma cors_table_content_type o : header "Content-Type" (cors_table o) = None.
Proof.
  unfold cors_table, decision_table. header_lookup.
  destruct (Origin.echoes o); by header_lookup.
Qed.

Lemma cors_table_content_length o : header "Content-Length" (cors_table o) = None.
Proof.
  unfold cors_table, decision_table. header_lookup.
  destruct (Origin.echoes o); by header_lookup.
Qed.

Lemma json_block_content_type text t :
  header "Content-Type" (json_block text t) = Some (HStr "application/json").
Proof. unfold json_block. by header_lookup. Qed.

Lemma json_block_content_length text t :
  header "Content-Length" (json_block text t) = Some (HNum (String.length text)).
Proof. unfold json_block. by header_lookup. Qed.

(** The request targets and the route. *)
Lemma route_targets u c : u ∈ targets c ↔ route u = Some c.
Proof.
  split.
  - destruct c; simpl; rewrite !elem_of_cons, elem_of_nil;
      intros [-> | [-> | []]]; reflexivity.
  - unfold route, plan_path, script_path.
    destruct (decide (u = "/plans")) as [-> | N1]; [intros [= <-]; set_solver | ].
    destruct (decide (u = "/api/plans")) as [-> | N2]; [intros [= <-]; set_solver | ].
    destruct (decide (u = "/ai-recommend")) as [-> | N3]; [intros [= <-]; set_solver | ].
    destruct (decide (u = "/api/recommend")) as [-> | N4]; [intros [= <-]; set_solver | ].
    by rewrite !bool_decide_eq_false_2.
Qed.

Lemma route_none u : (∀ c, u ∉ targets c) ↔ route u = None.
Proof.
  split.
  - intros Hn. destruct (route u) as [c | ] eqn:Hr; [ | done].
    apply route_targets in Hr. by destruct (Hn c).
  - intros Hr c Hin. apply route_targets in Hin. congruence.
Qed.

(** *** Counting what went on the wire *)

Lemma backstage_quiet tr : backstage tr → quiet tr.
Proof.
  unfold backstage, quiet. intros Hb. eapply Forall_impl; [exact Hb | ].
  by intros [ | | | | ].
Qed.

Lemma cors_events_quiet o : quiet (cors_events o).
Proof.
  unfold cors_events, decision_events, fixed_events, quiet.
  destruct (Origin.echoes o); repeat constructor.
Qed.

Lemma quiet_counts tr status block body :
  quiet tr →
  heads (tr ++ [EvHead status block; EvEnd body]) = 1
  ∧ ends (tr ++ [EvHead status block; EvEnd body]) = 1.
Proof.
  unfold quiet, heads, ends. induction 1 as [ | e tr [He Hd] _ [IH1 IH2]]; [done | ].
  simpl. rewrite !filter_cons, He, Hd. by split.
Qed.

(** *** The shape of every run

    Whatever the request and the platform, the run stores the CORS headers
    first, then possibly calls a collaborator and logs, then writes one
    head and one end; the block is the CORS table, alone (preflight), with
    a content type (health) or with a content type and a length (every
    answer that goes through [sendJson]). *)
Lemma run_shape req :
  ∃ mid status block body,
    run req = replied (cors_events (origin_of req) ++ mid) status block body
    ∧ backstage mid
    ∧ ((method req = "OPTIONS" ∧ status = 204
        ∧ block = cors_table (origin_of req) ∧ body = None)
       ∨ (method req ≠ "OPTIONS" ∧ is_health req = true ∧ status = 200
          ∧ block = store "Content-Type" (HStr "application/json")
                      (cors_table (origin_of req))
          ∧ body = Some status_ok_text)
       ∨ (method req ≠ "OPTIONS" ∧ is_health req = false ∧ status ≠ 204
          ∧ ∃ text, block = json_block text (cors_table (origin_of req))
                    ∧ body = Some text)).
Proof.
  set (o := origin_of req).
  destruct (decide (method req = "OPTIONS")) as [Ho | Ho].
  { exists [], 204, (cors_table o), None. rewrite app_nil_r.
    split; [by apply listener_options | ]. split; [constructor | by left]. }
  destruct (is_health req) eqn:Hh.
  { exists [], 200, (store "Content-Type" (HStr "application/json") (cors_table o)),
      (Some status_ok_text). rewrite app_nil_r.
    split; [by apply listener_health | ].
    split; [constructor | right; by left]. }
  assert (J : ∀ mid status text,
             backstage mid → status ≠ 204 →
             run req = replied (cors_events o ++ mid) status
                         (json_block text (cors_table o)) (Some text) →
             ∃ mid status block body,
               run req = replied (cors_events o ++ mid) status block body
               ∧ backstage mid
               ∧ ((method req = "OPTIONS" ∧ status = 204
                   ∧ block = cors_table o ∧ body = None)
                  ∨ (method req ≠ "OPTIONS" ∧ false = true ∧ status = 200
                     ∧ block = store "Content-Type" (HStr "application/json")
                                 (cors_table o)
                     ∧ body = Some status_ok_text)
                  ∨ (method req ≠ "OPTIONS" ∧ false = false ∧ status ≠ 204
                     ∧ ∃ text, block = json_block text (cors_table o)
                               ∧ body = Some text))).
  { intros mid status text Hb Hs Hr.
    exists mid, status, (json_block text (cors_table o)), (Some text).
    split; [done | ]. split; [done | ]. right; right. eauto 8. }
  destruct (decide (method req = "POST")) as [Hp | Hp].
  2:{ apply (J [] 404 (error_text "Not found")); [constructor | done | ].
      rewrite app_nil_r. by apply listener_not_found. }
  set (body := foldl onData EmptyString (chunks req)).
  assert (Hpost : run req = onEnd req body (cors_world o))
    by (by apply listener_post).
  destruct (JSON_parse (or_string body "{}")) as [payload | ] eqn:Hj.
  2:{ apply (J [] 400 (error_text "Invalid JSON")); [constructor | done | ].
      rewrite Hpost, app_nil_r. by rewrite onEnd_invalid. }
  assert (Hrun : run req = dispatch req payload (cors_world o))
    by (rewrite Hpost; by apply onEnd_parsed).
  destruct (route (url req)) as [c | ] eqn:Hr.
  2:{ apply (J [] 404 (error_text "Not found")); [constructor | done | ].
      rewrite Hrun, app_nil_r. by rewrite dispatch_unrouted. }
  destruct (invoke c payload) as [v | reason] eqn:Hi.
  2:{ apply (J [EvCall c payload; EvConsoleError (Thrown reason)] 500
               (error_text "Internal server error"));
        [by repeat constructor | done | ].
      rewrite Hrun. by rewrite (dispatch_rejected _ _ _ _ _ Hr Hi). }
  destruct (JSON_stringify v) as [[text | ] | e] eqn:Hs.
  - apply (J [EvCall c payload] 200 text); [by repeat constructor | done | ].
    rewrite Hrun. by rewrite (dispatch_fulfilled _ _ _ _ _ _ Hr Hi Hs).
  - destruct (dispatch_unserializable req payload c v (cors_world o) Hr Hi)
      as [e He]; [congruence | done | done | ].
    apply (J [EvCall c payload; EvConsoleError e] 500
             (error_text "Internal server error"));
      [by repeat constructor | done | ].
    by rewrite Hrun, He.
  - destruct (dispatch_unserializable req payload c v (cors_world o) Hr Hi)
      as [e' He]; [congruence | done | done | ].
    apply (J [EvCall c payload; EvConsoleError e'] 500
             (error_text "Internal server error"));
      [by repeat constructor | done | ].
    by rewrite Hrun, He.
Qed.

End GatewayFacts.

(** ** Properties of the gateway *)

Section GatewayProperties.
Import Js Http Gateway Observe.
Context `{Platform}.

(** The classifier echoes every origin the three whole-string patterns
    accept. *)
Lemma spec_echoes_echoes o : Origin.spec_echoes o = true → Origin.echoes o = true.
Proof.
  unfold Origin.spec_echoes, Origin.echoes, Origin.spec_isSunfire, Origin.isSunfire.
  rewrite !orb_true_iff. intros [[Hs | Hl] | He]; auto.
  left; left. by apply test_anchored_test_end.
Qed.

(** The Sunfire test of [setCors] accepts an origin exactly when some
    suffix of it is accepted by the whole-string pattern. *)
Lemma isSunfire_suffix o :
  Origin.isSunfire o = true
  ↔ ∃ pre w, o = pre +:+ w ∧ Origin.spec_isSunfire w = true.
Proof. apply test_end_anchored_suffix. Qed.

(** The echo is decided by the condition of [setCors] and by nothing else:
    on every path the block written carries the origin and [Vary] exactly
    when the condition holds. *)
Lemma echo_decided req :
  ∃ before status block body,
    run req = replied before status block body
    ∧ header "Access-Control-Allow-Origin" block
      = (if Origin.echoes (origin_of req) then Some (HStr (origin_of req)) else None)
    ∧ header "Vary" block
      = (if Origin.echoes (origin_of req) then Some (HStr "Origin") else None).
Proof.
  destruct (run_shape req) as (mid & status & block & body & Hr & _ & Hc).
  exists (cors_events (origin_of req) ++ mid), status, block, body.
  split; [done | ].
  destruct Hc as [(_ & _ & -> & _) | [(_ & _ & _ & -> & _) | (_ & _ & _ & text & -> & _)]];
    unfold json_block;
    rewrite ?header_store_ne by (vm_compute; discriminate);
    by rewrite cors_table_allow_origin, cors_table_vary.
Qed.

(** C1. The claim is that the origin is echoed if and only if it matches
    one of the three patterns, each anchored to the whole string.  The
    Sunfire pattern of [setCors] has no start anchor: the origin
    [http://evil.example/https://sunfirematrix.com] is none of the three
    approved shapes, and every request that carries it gets
    [Access-Control-Allow-Origin] set to that origin and [Vary: Origin]. *)
Theorem echo_of_unanchored_origin m u cs :
  ¬ Origin.approved crafted_origin
  ∧ ∃ before status block body,
      run {| method := m; url := u; origin := Some crafted_origin; chunks := cs |}
      = replied before status block body
      ∧ header "Access-Control-Allow-Origin" block = Some (HStr crafted_origin)
      ∧ header "Vary" block = Some (HStr "Origin").
Proof.
  split.
  { rewrite <- spec_echoes_approved.
    replace (Origin.spec_echoes crafted_origin) with false
      by (vm_compute; reflexivity).
    discriminate. }
  set (req := {| method := m; url := u; origin := Some crafted_origin; chunks := cs |}).
  destruct (echo_decided req) as (before & status & block & body & Hr & Ha & Hv).
  assert (He : Origin.echoes (origin_of req) = true) by (vm_compute; reflexivity).
  destruct (Origin.echoes (origin_of req)); [ | discriminate He].
  exists before, status, block, body. split; [exact Hr | ].
  split; [exact Ha | exact Hv].
Qed.

(** C2. For every request exactly one response is produced and written:
    the run completes without an exception, the response is terminated,
    and the wire carries one status line followed by one end, never zero
    and never two, whatever [JSON.parse] and the collaborators do. *)
Theorem exactly_one_response req :
  ∃ before status block body,
    run req = replied before status block body
    ∧ quiet before
    ∧ finished (run req).2 = true
    ∧ heads (trace (run req).2) = 1
    ∧ ends (trace (run req).2) = 1.
Proof.
  destruct (run_shape req) as (mid & status & block & body & Hr & Hb & _).
  exists (cors_events (origin_of req) ++ mid), status, block, body.
  assert (Hq : quiet (cors_events (origin_of req) ++ mid)).
  { apply Forall_app. split; [apply cors_events_quiet | by apply backstage_quiet]. }
  rewrite Hr. simpl. repeat split; try done; by apply quiet_counts.
Qed.

(** C3 as amended. Every answer with a status other than 204 carries
    [Content-Type: application/json]; every such answer except the one of
    the health route also carries a [Content-Length] equal to the byte
    length of the serialized body; the health answer is written with no
    [Content-Length]; a 204 answer carries neither header and no body. *)
Theorem content_headers req :
  ∃ before status block body,
    run req = replied before status block body
    ∧ (if bool_decide (status = 204) then carries_nothing block body
       else if is_health req then carries_type_only block body
       else carries_json_headers block body).
Proof.
  destruct (run_shape req) as (mid & status & block & body & Hr & _ & Hc).
  exists (cors_events (origin_of req) ++ mid), status, block, body.
  split; [done | ].
  destruct Hc as [(_ & -> & -> & ->)
                 | [(_ & Hh & -> & -> & ->) | (_ & Hh & Hs & text & -> & ->)]].
  - simpl. unfold carries_nothing.
    by rewrite cors_table_content_type, cors_table_content_length.
  - simpl. rewrite Hh. unfold carries_type_only.
    rewrite header_store_eq, header_store_ne by (vm_compute; discriminate).
    by rewrite cors_table_content_length.
  - rewrite (bool_decide_eq_false_2 _ Hs), Hh. unfold carries_json_headers.
    rewrite json_block_content_type, json_block_content_length. eauto.
Qed.

(** C4. On every path the decision of the classifier and the three fixed
    headers are the first things the run does, before the status line and
    before any byte of the body, and the block that goes out with the
    status line carries them. *)
Theorem cors_headers_first req :
  ∃ rest status block body,
    run req
    = replied (decision_events (origin_of req) ++ fixed_events ++ rest)
        status block body
    ∧ quiet rest
    ∧ header "Access-Control-Allow-Methods" block = Some (HStr "GET, POST, OPTIONS")
    ∧ header "Access-Control-Allow-Headers" block
      = Some (HStr "Content-Type, Authorization")
    ∧ header "Access-Control-Max-Age" block = Some (HStr "86400")
    ∧ header "Access-Control-Allow-Origin" block
      = (if Origin.echoes (origin_of req) then Some (HStr (origin_of req)) else None)
    ∧ header "Vary" block
      = (if Origin.echoes (origin_of req) then Some (HStr "Origin") else None).
Proof.
  destruct (run_shape req) as (mid & status & block & body & Hr & Hb & Hc).
  exists mid, status, block, body.
  split; [by rewrite Hr; unfold cors_events; rewrite <- app_assoc | ].
  split; [by apply backstage_quiet | ].
  destruct Hc as [(_ & _ & -> & _) | [(_ & _ & _ & -> & _) | (_ & _ & _ & text & -> & _)]];
    unfold json_block;
    rewrite ?header_store_ne by (vm_compute; discriminate);
    by rewrite cors_table_methods, cors_table_headers, cors_table_max_age,
         cors_table_allow_origin, cors_table_vary.
Qed.

Lemma or_string_nonempty a b : a ≠ EmptyString → or_string a b = a.
Proof. intros Hn. unfold or_string. by rewrite bool_decide_eq_false_2. Qed.

Lemma not_health req :
  ¬ (method req = "GET" ∧ (url req = "/health" ∨ url req = "/api/health")) →
  is_health req = false.
Proof.
  intros Hn. unfold is_health.
  repeat case_bool_decide; simpl; try done; destruct Hn; auto.
Qed.

Lemma post_not_health req : method req = "POST" → is_health req = false.
Proof. intros Hm. unfold is_health. by rewrite Hm. Qed.

(** C5. A POST to one of the four targets whose collaborator fails is
    answered 500 with the body [{"error":"Internal server error"}]; what
    the collaborator failed with goes to the server log and the body is
    the same text whatever it was. *)
Theorem collaborator_failure_opaque req payload c reason :
  method req = "POST" →
  JSON_parse (or_string (foldl onData EmptyString (chunks req)) "{}") = Some payload →
  url req ∈ targets c →
  invoke c payload = Rejected reason →
  run req
  = error_reply
      (cors_events (origin_of req)
       ++ [EvCall c payload; EvConsoleError (Thrown reason)])
      500 "Internal server error" (cors_table (origin_of req)).
Proof.
  intros Hm Hj Ht Hi. apply route_targets in Ht.
  rewrite (listener_post _ Hm), (onEnd_parsed _ _ _ _ Hj).
  by rewrite (dispatch_rejected _ _ _ _ _ Ht Hi).
Qed.

(** C6. On a POST the body that is parsed is the whole body, all chunks
    in arrival order: if it is not empty and does not parse the answer is
    400 with [{"error":"Invalid JSON"}]; if it parses, what it parses to is
    dispatched; an empty body is not a parse error, it is dispatched with
    the payload [{}], which the collaborator of the target receives. *)
Theorem body_parse_policy req :
  method req = "POST" →
  JSON_parse "{}" = Some (Object []) →
  (RegExp.flatten (chunks req) ≠ EmptyString →
   JSON_parse (RegExp.flatten (chunks req)) = None →
   run req = error_reply (cors_events (origin_of req)) 400 "Invalid JSON"
               (cors_table (origin_of req)))
  ∧ (∀ payload,
       RegExp.flatten (chunks req) ≠ EmptyString →
       JSON_parse (RegExp.flatten (chunks req)) = Some payload →
       run req = dispatch req payload (cors_world (origin_of req)))
  ∧ (RegExp.flatten (chunks req) = EmptyString →
     run req = dispatch req (Object []) (cors_world (origin_of req))
     ∧ ∀ c, url req ∈ targets c →
            ∃ rest, trace (run req).2
                    = cors_events (origin_of req) ++ EvCall c (Object []) :: rest).
Proof.
  intros Hm Hempty. rewrite (listener_post _ Hm), body_of_chunks.
  split; [ | split].
  - intros Hn Hj. rewrite onEnd_invalid; [done | | done | done].
    by rewrite or_string_nonempty.
  - intros payload Hn Hj. apply onEnd_parsed. by rewrite or_string_nonempty.
  - intros ->. rewrite (onEnd_parsed _ _ (Object [])) by done.
    split; [done | ]. intros c Ht. apply route_targets in Ht.
    destruct (invoke c (Object [])) as [v | reason] eqn:Hi.
    + destruct (JSON_stringify v) as [[text | ] | e] eqn:Hs.
      * rewrite (dispatch_fulfilled _ _ _ _ _ _ Ht Hi Hs) by done. simpl.
        rewrite <- app_assoc. eauto.
      * destruct (dispatch_unserializable req (Object []) c v
                    (cors_world (origin_of req)) Ht Hi) as [e He];
          [congruence | done | done | ].
        rewrite He. simpl. rewrite <- app_assoc. eauto.
      * destruct (dispatch_unserializable req (Object []) c v
                    (cors_world (origin_of req)) Ht Hi) as [e' He];
          [congruence | done | done | ].
        rewrite He. simpl. rewrite <- app_assoc. eauto.
    + rewrite (dispatch_rejected _ _ _ _ _ Ht Hi) by done. simpl.
      rewrite <- app_assoc. eauto.
Qed.

(** C7. An OPTIONS request is answered 204 with no body, whatever the
    target and the origin; the run consists of the header stores of
    [setCors], the status line and the end, and nothing else. *)
Theorem preflight_no_content u o cs :
  run {| method := "OPTIONS"; url := u; origin := o; chunks := cs |}
  = replied (cors_events (or_default o EmptyString)) 204
      (cors_table (or_default o EmptyString)) None
  ∧ carries_nothing (cors_table (or_default o EmptyString)) None
  ∧ Forall (λ e, is_set_header e = true) (cors_events (or_default o EmptyString)).
Proof.
  split; [by apply listener_options | ]. split.
  - unfold carries_nothing.
    by rewrite cors_table_content_type, cors_table_content_length.
  - unfold cors_events, decision_events, fixed_events.
    destruct (Origin.echoes _); repeat constructor.
Qed.

(** C9. A POST with a body that parses, to a target that is not exactly
    one of the four routed strings, is answered 404 with the body
    [{"error":"Not found"}]: the comparison is on the whole target, so a
    query string, another case or a trailing slash does not match. *)
Theorem unrouted_target_not_found req payload :
  method req = "POST" →
  JSON_parse (or_string (foldl onData EmptyString (chunks req)) "{}") = Some payload →
  url req ∉ ["/plans"; "/api/plans"; "/ai-recommend"; "/api/recommend"] →
  run req = error_reply (cors_events (origin_of req)) 404 "Not found"
              (cors_table (origin_of req)).
Proof.
  intros Hm Hj Hu.
  rewrite (listener_post _ Hm), (onEnd_parsed _ _ _ _ Hj).
  rewrite dispatch_unrouted; [done | | done | done].
  apply route_none. intros c Ht. apply Hu.
  destruct c; unfold targets in Ht; rewrite !elem_of_cons in Ht;
    rewrite !elem_of_cons; destruct Ht as [Ht | [Ht | Ht]]; auto 6.
  all: by apply elem_of_nil in Ht.
Qed.

(** C10. A POST whose body is not empty and does not parse is answered 400
    and no collaborator is invoked. *)
Theorem invalid_json_invokes_nobody req :
  method req = "POST" →
  foldl onData EmptyString (chunks req) ≠ EmptyString →
  JSON_parse (foldl onData EmptyString (chunks req)) = None →
  run req = error_reply (cors_events (origin_of req)) 400 "Invalid JSON"
              (cors_table (origin_of req))
  ∧ Forall (λ e, is_call e = false) (trace (run req).2).
Proof.
  intros Hm Hn Hj.
  assert (Hr : run req = error_reply (cors_events (origin_of req)) 400 "Invalid JSON"
                           (cors_table (origin_of req))).
  { rewrite (listener_post _ Hm). rewrite onEnd_invalid; [done | | done | done].
    by rewrite or_string_nonempty. }
  split; [done | ]. rewrite Hr. simpl.
  apply Forall_app. split; [ | by repeat constructor].
  unfold cors_events, decision_events, fixed_events.
  destruct (Origin.echoes _); repeat constructor.
Qed.

End GatewayProperties.

(** ** Concrete runs *)

Section Runs.
Import Js Http Gateway Observe.

Example sunfire_apex : Origin.isSunfire "https://sunfirematrix.com" = true.
Proof. vm_compute. reflexivity. Qed.

Example sunfire_two_labels : Origin.isSunfire "https://a.b.SunfireMatrix.COM" = true.
Proof. vm_compute. reflexivity. Qed.

Example sunfire_other_host : Origin.isSunfire "https://evil.com" = false.
Proof. vm_compute. reflexivity. Qed.

Example sunfire_lookalike : Origin.isSunfire "https://notsunfirematrix.com" = false.
Proof. vm_compute. reflexivity. Qed.

Example local_with_port : Origin.isLocal "http://localhost:5173" = true.
Proof. vm_compute. reflexivity. Qed.

Example local_without_port : Origin.isLocal "HTTP://LocalHost" = true.
Proof. vm_compute. reflexivity. Qed.

Example local_empty_port : Origin.isLocal "http://localhost:" = false.
Proof. vm_compute. reflexivity. Qed.

Example local_trailing : Origin.isLocal "http://localhost:80/x" = false.
Proof. vm_compute. reflexivity. Qed.

Example extension_prefix : Origin.isExtension "chrome-extension://abc" = true.
Proof. vm_compute. reflexivity. Qed.

Example extension_case : Origin.isExtension "Chrome-Extension://abc" = false.
Proof. vm_compute. reflexivity. Qed.

Example absent_origin_not_echoed : Origin.echoes (or_default None EmptyString) = false.
Proof. vm_compute. reflexivity. Qed.

Example sample_parse_empty_object : Sample.parse "{}" = Some (Object []).
Proof. vm_compute. reflexivity. Qed.

Example sample_parse_garbage : Sample.parse "not-json{" = None.
Proof. vm_compute. reflexivity. Qed.

(** C3, counterexample. [GET /health] is answered 200 and the block that
    goes out has no [Content-Length]: the answer is not as the claim
    describes a non-204 answer. *)
Lemma health_answer_without_length :
  ¬ content_headers_as_specified (@run Sample.platform Sample.health_request).
Proof.
  intros Hc.
  specialize (Hc (cors_events EmptyString) 200
                (store "Content-Type" (HStr "application/json")
                   (cors_table EmptyString))
                (Some status_ok_text)).
  simpl in Hc. destruct Hc as (_ & text & _ & Hl).
  - by apply (@listener_health Sample.platform Sample.health_request).
  - rewrite header_store_ne in Hl by (vm_compute; discriminate).
    rewrite cors_table_content_length in Hl. discriminate Hl.
Qed.

(** C5 at work: the plan service refuses the payload [{"fail":true}]. *)
Lemma collaborator_failure_opaque_witness :
  @invoke Sample.platform FetchPlans (Object [("fail", Bool true)])
  = Rejected Sample.fail_reason
  ∧ @run Sample.platform Sample.fail_request
    = error_reply
        (cors_events "chrome-extension://abc"
         ++ [EvCall FetchPlans (Object [("fail", Bool true)]);
             EvConsoleError (Thrown Sample.fail_reason)])
        500 "Internal server error" (cors_table "chrome-extension://abc").
Proof.
  split; [reflexivity | ].
  apply (@collaborator_failure_opaque Sample.platform Sample.fail_request
           (Object [("fail", Bool true)]) FetchPlans Sample.fail_reason).
  - reflexivity.
  - vm_compute. reflexivity.
  - simpl. constructor.
  - reflexivity.
Defined.

(** C6 at work: a body that is not JSON in two chunks, a JSON body cut
    in two, and no body at all. *)
Lemma body_parse_policy_witness :
  @run Sample.platform Sample.garbage_request
  = error_reply (cors_events EmptyString) 400 "Invalid JSON" (cors_table EmptyString)
  ∧ @run Sample.platform Sample.fail_request
    = @dispatch Sample.platform Sample.fail_request (Object [("fail", Bool true)])
        (cors_world "chrome-extension://abc")
  ∧ ∃ rest, trace (@run Sample.platform Sample.empty_request).2
            = cors_events EmptyString ++ EvCall FetchPlans (Object []) :: rest.
Proof.
  split; [ | split].
  - apply (@body_parse_policy Sample.platform Sample.garbage_request).
    + reflexivity.
    + vm_compute. reflexivity.
    + vm_compute. discriminate.
    + vm_compute. reflexivity.
  - apply (@body_parse_policy Sample.platform Sample.fail_request).
    + reflexivity.
    + vm_compute. reflexivity.
    + vm_compute. discriminate.
    + vm_compute. reflexivity.
  - apply (@body_parse_policy Sample.platform Sample.empty_request).
    + reflexivity.
    + vm_compute. reflexivity.
    + reflexivity.
    + simpl. constructor.
Defined.

(** C9 at work: [POST /plans?x=1]. *)
Lemma unrouted_target_not_found_witness :
  @run Sample.platform Sample.query_request
  = error_reply (cors_events EmptyString) 404 "Not found" (cors_table EmptyString).
Proof.
  apply (@unrouted_target_not_found Sample.platform Sample.query_request (Object [])).
  - reflexivity.
  - vm_compute. reflexivity.
  - simpl. rewrite !elem_of_cons, elem_of_nil.
    intros [Hu | [Hu | [Hu | [Hu | []]]]]; discriminate Hu.
Defined.

(** C10 at work: the body [not-json{] reaches no collaborator. *)
Lemma invalid_json_invokes_nobody_witness :
  @run Sample.platform Sample.garbage_request
  = error_reply (cors_events EmptyString) 400 "Invalid JSON" (cors_table EmptyString)
  ∧ Forall (λ e, is_call e = false)
      (trace (@run Sample.platform Sample.garbage_request).2).
Proof.
  apply (@invalid_json_invokes_nobody Sample.platform Sample.garbage_request).
  - reflexivity.
  - vm_compute. discriminate.
  - vm_compute. reflexivity.
Defined.

(** The target is compared as a whole: another case or a trailing slash
    is another target. *)
Example upper_case_target :
  @run Sample.platform Sample.upper_request
  = error_reply (cors_events EmptyString) 404 "Not found" (cors_table EmptyString).
Proof.
  rewrite (@listener_post Sample.platform) by reflexivity.
  rewrite (@onEnd_parsed Sample.platform _ _ (Object [])) by (vm_compute; reflexivity).
  by rewrite (@dispatch_unrouted Sample.platform).
Qed.

Example trailing_slash_target :
  @run Sample.platform Sample.slash_request
  = error_reply (cors_events EmptyString) 404 "Not found" (cors_table EmptyString).
Proof.
  rewrite (@listener_post Sample.platform) by reflexivity.
  rewrite (@onEnd_parsed Sample.platform _ _ (Object [])) by (vm_compute; reflexivity).
  by rewrite (@dispatch_unrouted Sample.platform).
Qed.

(** The health answer, and a successful plan fetch with its length. *)
Example health_answer :
  @run Sample.platform (Sample.get "/api/health" (Some "http://localhost:5173"))
  = replied (cors_events "http://localhost:5173") 200
      (store "Content-Type" (HStr "application/json")
         (cors_table "http://localhost:5173"))
      (Some status_ok_text).
Proof. by apply (@listener_health Sample.platform). Qed.

Example plans_answer :
  ∃ text,
    JSON_stringify (Array [Object [("id", Number "1"); ("name", Str "Gold")]])
    = Normal (Some text)
    ∧ String.length text = 24
    ∧ @run Sample.platform Sample.empty_request
      = replied (cors_events EmptyString ++ [EvCall FetchPlans (Object [])]) 200
          (json_block text (cors_table EmptyString)) (Some text).
Proof.
  eexists. split; [vm_compute; reflexivity | ]. split; [reflexivity | ].
  rewrite (@listener_post Sample.platform) by reflexivity.
  rewrite (@onEnd_parsed Sample.platform _ _ (Object [])) by (vm_compute; reflexivity).
  by erewrite (@dispatch_fulfilled Sample.platform).
Qed.

End Runs.

(** ** The listener and the routing table *)

Section RouterFacts.
Import Js Http Gateway Observe Router.
Context `{Platform}.

Lemma render_error o evs st message :
  render o (error_verdict evs st message)
  = error_reply (cors_events o ++ evs) st message (cors_table o).
Proof. reflexivity. Qed.

Lemma listener_table req :
  run req
  = render (origin_of req)
      (resolve (method req) (url req) (RegExp.flatten (chunks req))).
Proof.
  set (o := origin_of req). unfold resolve.
  destruct (decide (method req = "OPTIONS")) as [Ho | Ho].
  { rewrite (bool_decide_eq_true_2 _ Ho). unfold render. simpl.
    rewrite app_nil_r. by apply listener_options. }
  rewrite (bool_decide_eq_false_2 _ Ho).
  destruct (is_health req) eqn:Hh.
  { unfold is_health in Hh. rewrite Hh. unfold render. simpl.
    rewrite app_nil_r. by apply listener_health. }
  pose proof Hh as Hh'. unfold is_health in Hh'. rewrite Hh'.
  destruct (decide (method req = "POST")) as [Hp | Hp].
  2:{ rewrite (bool_decide_eq_false_2 _ Hp). cbn [negb].
      rewrite render_error, app_nil_r. by apply listener_not_found. }
  rewrite (bool_decide_eq_true_2 _ Hp). cbn [negb].
  rewrite (listener_post _ Hp), body_of_chunks. fold o.
  set (text := RegExp.flatten (chunks req)).
  destruct (JSON_parse (or_string text "{}")) as [payload | ] eqn:Hj.
  2:{ rewrite render_error, app_nil_r. by rewrite onEnd_invalid. }
  rewrite (onEnd_parsed _ _ _ _ Hj).
  destruct (route (url req)) as [c | ] eqn:Hr.
  2:{ rewrite render_error, app_nil_r. by rewrite dispatch_unrouted. }
  destruct (invoke c payload) as [v | reason] eqn:Hi.
  2:{ rewrite render_error. by rewrite (dispatch_rejected _ _ _ _ _ Hr Hi). }
  destruct (JSON_stringify v) as [[json | ] | e] eqn:Hs.
  - by rewrite (dispatch_fulfilled _ _ _ _ _ _ Hr Hi Hs).
  - rewrite render_error, dispatch_route, Hr. unfold try_catch.
    rewrite (await_fulfilled _ _ _ _ Hi), (sendJson_undefined _ _ _ Hs).
    rewrite catch_internal by done. simpl. by rewrite <- app_assoc.
  - rewrite render_error, dispatch_route, Hr. unfold try_catch.
    rewrite (await_fulfilled _ _ _ _ Hi), (sendJson_throws _ _ _ _ Hs).
    rewrite catch_internal by done. simpl. by rewrite <- app_assoc.
Qed.

(** X1. The listener implements the routing table: for every request the
    run is the verdict of [resolve] on the method, the target and the
    concatenated body, written behind the headers of [setCors]. *)
Theorem run_resolve req :
  run req
  = render (origin_of req)
      (resolve (method req) (url req) (RegExp.flatten (chunks req))).
Proof. apply listener_table. Qed.

(** The verdicts of the table, by what they show. *)
Lemma resolve_backstage m u text : backstage (backstage_events (resolve m u text)).
Proof.
  unfold resolve, backstage.
  repeat first [ case_bool_decide | case_match | progress simpl ];
    repeat constructor.
Qed.

Lemma cors_events_silent o :
  statuses (cors_events o) = [] ∧ bodies (cors_events o) = []
  ∧ calls (cors_events o) = [] ∧ logs (cors_events o) = [].
Proof.
  unfold cors_events, decision_events, fixed_events.
  by destruct (Origin.echoes o).
Qed.

Lemma backstage_silent evs : backstage evs → statuses evs = [] ∧ bodies evs = [].
Proof.
  induction 1 as [ | e evs He _ [IH1 IH2]]; [done | ].
  destruct e; try discriminate He; by split.
Qed.

Lemma digest_render o v :
  backstage (backstage_events v) →
  digest (render o v)
  = (Normal tt, [status v], [body v], calls (backstage_events v),
     logs (backstage_events v)).
Proof.
  intros Hb. apply backstage_silent in Hb as [Hs Hd].
  destruct (cors_events_silent o) as (Cs & Cb & Cc & Cl).
  unfold digest, render, replied, answered. simpl.
  unfold statuses, bodies, calls, logs in *.
  rewrite !omap_app, Cs, Cb, Cc, Cl, Hs, Hd. simpl.
  by rewrite !app_nil_r.
Qed.

Lemma digest_run req :
  digest (run req)
  = (let v := resolve (method req) (url req) (RegExp.flatten (chunks req)) in
     (Normal tt, [status v], [body v], calls (backstage_events v),
      logs (backstage_events v))).
Proof. rewrite listener_table. apply digest_render, resolve_backstage. Qed.

Lemma resolve_status m u text :
  status (resolve m u text) ∈ [200; 204; 400; 404; 500].
Proof.
  unfold resolve.
  repeat first [ case_bool_decide | case_match | progress simpl ];
    rewrite !elem_of_cons; auto 8.
Qed.

Lemma resolve_logs m u text :
  logs (backstage_events (resolve m u text)) ≠ [] ↔ status (resolve m u text) = 500.
Proof.
  unfold resolve.
  repeat first [ case_bool_decide | case_match | progress simpl ];
    split; intros; try done.
Qed.

Lemma resolve_calls m u text c p :
  (c, p) ∈ calls (backstage_events (resolve m u text)) →
  m = "POST" ∧ route u = Some c ∧ JSON_parse (or_string text "{}") = Some p.
Proof.
  unfold resolve.
  destruct (bool_decide (m = "OPTIONS")); [by intros ?%elem_of_nil | ].
  destruct (bool_decide (m = "GET") && _); [by intros ?%elem_of_nil | ].
  case_bool_decide as Hm; [ | by intros ?%elem_of_nil]. cbn [negb].
  destruct (JSON_parse _) as [payload | ]; [ | by intros ?%elem_of_nil].
  destruct (route u) as [c' | ]; [ | by intros ?%elem_of_nil].
  assert (Hin : (c, p) ∈ [(c', payload)] → m = "POST" ∧ Some c' = Some c
                                          ∧ Some payload = Some p).
  { intros Hin%list_elem_of_singleton. by injection Hin as -> ->. }
  destruct (invoke c' payload) as [v | reason]; [ | exact Hin].
  by destruct (JSON_stringify v) as [[json | ] | e].
Qed.

Lemma resolve_one_call m u text :
  (length (calls (backstage_events (resolve m u text))) ≤ 1)%nat.
Proof.
  unfold resolve.
  repeat first [ case_bool_decide | case_match | progress simpl ]; lia.
Qed.

(** X2. [GET /health] and [GET /api/health] are answered 200 with the
    body [{"status":"ok"}], whatever the origin, the body sent along and the
    platform. *)
Theorem health_route_answer o cs :
  run {| method := "GET"; url := "/health"; origin := o; chunks := cs |}
  = replied (cors_events (or_default o EmptyString)) 200
      (store "Content-Type" (HStr "application/json")
         (cors_table (or_default o EmptyString)))
      (Some status_ok_text)
  ∧ run {| method := "GET"; url := "/api/health"; origin := o; chunks := cs |}
    = replied (cors_events (or_default o EmptyString)) 200
        (store "Content-Type" (HStr "application/json")
           (cors_table (or_default o EmptyString)))
        (Some status_ok_text).
Proof. split; by apply listener_health. Qed.

(** X3. A POST to a routed target whose collaborator resolves with a value
    that has a JSON text is answered 200 with that text and its byte
    length, after one call of that collaborator with the parsed payload. *)
Theorem routed_success req payload c v text :
  method req = "POST" →
  JSON_parse (or_string (RegExp.flatten (chunks req)) "{}") = Some payload →
  url req ∈ targets c →
  invoke c payload = Fulfilled v →
  JSON_stringify v = Normal (Some text) →
  run req
  = replied (cors_events (origin_of req) ++ [EvCall c payload]) 200
      (json_block text (cors_table (origin_of req))) (Some text)
  ∧ header "Content-Length" (json_block text (cors_table (origin_of req)))
    = Some (HNum (String.length text)).
Proof.
  intros Hm Hj Ht Hi Hs. apply route_targets in Ht.
  split; [ | apply json_block_content_length].
  rewrite (listener_post _ Hm), body_of_chunks, (onEnd_parsed _ _ _ _ Hj).
  by rewrite (dispatch_fulfilled _ _ _ _ _ _ Ht Hi Hs).
Qed.

(** X4. When the collaborator resolves with a value [JSON.stringify] has
    no text for ([undefined], a function result, a [BigInt] inside), the
    answer is the 500 of the [catch]: the error is logged and no 200 is
    written. *)
Theorem unserializable_result req payload c v :
  method req = "POST" →
  JSON_parse (or_string (RegExp.flatten (chunks req)) "{}") = Some payload →
  url req ∈ targets c →
  invoke c payload = Fulfilled v →
  (∀ text, JSON_stringify v ≠ Normal (Some text)) →
  ∃ e, run req
       = error_reply
           (cors_events (origin_of req) ++ [EvCall c payload; EvConsoleError e])
           500 "Internal server error" (cors_table (origin_of req)).
Proof.
  intros Hm Hj Ht Hi Hs. apply route_targets in Ht.
  rewrite (listener_post _ Hm), body_of_chunks, (onEnd_parsed _ _ _ _ Hj).
  by apply (dispatch_unserializable req payload c v).
Qed.

(** X5. Every request is answered with one of five status codes: 200,
    204, 400, 404 or 500. *)
Theorem status_codes req :
  ∃ st, statuses (trace (run req).2) = [st] ∧ st ∈ [200; 204; 400; 404; 500].
Proof.
  pose proof (digest_run req) as Hd. unfold digest in Hd. simpl in Hd.
  injection Hd as _ Hst _ _ _.
  eexists. split; [exact Hst | apply resolve_status].
Qed.

(** X6. The server log gets a line exactly when the answer is a 500. *)
Theorem log_iff_internal_error req :
  logs (trace (run req).2) ≠ [] ↔ statuses (trace (run req).2) = [500].
Proof.
  pose proof (digest_run req) as Hd. unfold digest in Hd. simpl in Hd.
  injection Hd as _ Hst _ _ Hl. rewrite Hst, Hl, resolve_logs.
  split; [by intros -> | by intros [= ->]].
Qed.

(** X7. A run calls at most one collaborator, and a call is only made for
    a POST, to the collaborator of the request target, with the payload
    parsed from the body. *)
Theorem call_discipline req :
  (length (calls (trace (run req).2)) ≤ 1)%nat
  ∧ ∀ c p, (c, p) ∈ calls (trace (run req).2) →
           method req = "POST" ∧ url req ∈ targets c
           ∧ JSON_parse (or_string (RegExp.flatten (chunks req)) "{}") = Some p.
Proof.
  pose proof (digest_run req) as Hd. unfold digest in Hd. simpl in Hd.
  injection Hd as _ _ _ Hc _. rewrite Hc. split; [apply resolve_one_call | ].
  intros c p Hin. apply resolve_calls in Hin as (Hm & Hr & Hj).
  by rewrite route_targets.
Qed.

(** X9. The answer depends on the [data] events only through the
    concatenation of the strings that [body += chunk] appends, each chunk
    decoded on its own: two deliveries whose decoded chunks concatenate to
    the same string give the same run.  (A cut inside a multi-byte
    character changes what the chunks decode to, and is another delivery.) *)
Theorem chunking_invariance req cs1 cs2 :
  RegExp.flatten cs1 = RegExp.flatten cs2 →
  run (with_chunks req cs1) = run (with_chunks req cs2).
Proof. intros Hc. rewrite !listener_table. simpl. by rewrite Hc. Qed.

(** X10. The [Origin] header changes headers only: how the run completes,
    the status, the body, the collaborator calls and the log lines are the
    same for every origin, matched or not. *)
Theorem origin_independence req o :
  digest (run (with_origin req o)) = digest (run req).
Proof. by rewrite !digest_run. Qed.

(** X11. The block of every answer carries [Access-Control-Allow-Origin]
    with the origin of the request and [Vary: Origin] exactly when the
    origin is a localhost origin, starts with the extension prefix, or has
    a Sunfire origin at its end; otherwise it carries neither. *)
Theorem echo_characterised req :
  ∃ before st block b,
    run req = replied before st block b
    ∧ (reflected (origin_of req) →
       header "Access-Control-Allow-Origin" block = Some (HStr (origin_of req))
       ∧ header "Vary" block = Some (HStr "Origin"))
    ∧ (¬ reflected (origin_of req) →
       header "Access-Control-Allow-Origin" block = None
       ∧ header "Vary" block = None).
Proof.
  destruct (echo_decided req) as (before & st & block & b & Hr & Ha & Hv).
  exists before, st, block, b. split; [done | ].
  unfold reflected. rewrite <- echoes_shape.
  destruct (Origin.echoes (origin_of req)); by split.
Qed.

(** X12. Every origin of one of the three approved shapes is echoed: the
    block carries it unchanged, with [Vary: Origin]. *)
Theorem approved_origin_echoed req :
  Origin.approved (origin_of req) →
  ∃ before st block b,
    run req = replied before st block b
    ∧ header "Access-Control-Allow-Origin" block = Some (HStr (origin_of req))
    ∧ header "Vary" block = Some (HStr "Origin").
Proof.
  intros Ha%spec_echoes_approved%spec_echoes_echoes.
  destruct (echo_decided req) as (before & st & block & b & Hr & Ho & Hv).
  rewrite Ha in Ho, Hv. by exists before, st, block, b.
Qed.

(** X14. [sendJson] writes all or nothing: on a response whose head is not
    out it writes one head, with the length of the text, and one end, or
    it throws; and whenever it throws the response is as it was. *)
Theorem sendJson_all_or_nothing st payload w :
  (finished w = true → headersSent w = true) →
  (∃ text, headersSent w = false
           ∧ JSON_stringify payload = Normal (Some text)
           ∧ sendJson st payload w
             = (Normal tt,
                answered (json_block text (outHeaders w))
                  (trace w ++ [EvHead st (json_block text (outHeaders w));
                               EvEnd (Some text)])))
  ∨ (∃ e, sendJson st payload w = (Throw e, w)).
Proof.
  intros Hwf. destruct (headersSent w) eqn:Hh.
  - right. unfold sendJson, bind, lift.
    destruct (JSON_stringify payload) as [[text | ] | e]; simpl; eauto.
    unfold writeHead. rewrite Hh. eauto.
  - assert (Hf : finished w = false).
    { destruct (finished w); [ | done]. by specialize (Hwf eq_refl). }
    destruct (sendJson_cases st payload w Hh Hf) as [(text & Hs & Hr) | He].
    + left. by exists text.
    + by right.
Qed.

End RouterFacts.

(** ** Bodies, platforms and lookalike hosts *)

Section RouterCorollaries.
Import Js Http Gateway Observe Router.

(** X8. On a method other than POST the body is never read and nothing of
    the platform is used: the run is the same for every body, every
    [JSON.parse] and every pair of collaborators. *)
Theorem non_post_ignores_body (P1 P2 : Platform) req cs :
  method req ≠ "POST" →
  @run P1 req = @run P2 (with_chunks req cs).
Proof.
  intros Hm. rewrite (@listener_table P1), (@listener_table P2). simpl.
  unfold resolve. rewrite !(bool_decide_eq_false_2 _ Hm). cbn [negb].
  by repeat case_match.
Qed.

Lemma canonicalize_slash x :
  RegExp.canonicalize x = "/"%char → x = "/"%char.
Proof.
  destruct x as [[] [] [] [] [] [] [] []]; vm_compute; intros E;
    first [ reflexivity | discriminate E ].
Qed.

Lemma same_fold_snoc b c : ∀ a,
  Origin.same_fold a (b +:+ String c EmptyString) = true →
  ∃ a' x, a = a' +:+ String x EmptyString
          ∧ RegExp.canonicalize x = RegExp.canonicalize c.
Proof.
  induction b as [ | y b IH]; intros a; rewrite ?append_nil_l, ?append_cons.
  - destruct a as [ | x [ | ? ?]]; simpl; try done.
    + intros Hx%andb_true_iff. destruct Hx as [Hx%bool_decide_eq_true_1 _].
      by exists EmptyString, x.
    + by rewrite andb_false_r.
  - destruct a as [ | x a]; simpl; [done | ].
    intros [_ Ha]%andb_true_iff. destruct (IH a Ha) as (a' & z & -> & Hz).
    by exists (String x a'), z.
Qed.

Lemma dotted_snoc labels :
  labels ≠ [] → ∃ d, Origin.dotted labels = d +:+ ".".
Proof.
  induction labels as [ | l rest IH]; [done | ]. intros _. simpl.
  destruct rest as [ | l' rest'].
  - exists l. simpl. by rewrite append_nil_r.
  - destruct IH as [d Hd]; [done | ]. rewrite Hd.
    exists (l +:+ "." +:+ d). by rewrite !append_assoc.
Qed.

(** X13. Whatever the Sunfire test of [setCors] accepts ends with
    [sunfirematrix.com] (in any case) right after a dot or a slash: a host
    that only ends in those letters, like [evilsunfirematrix.com], is never
    accepted. *)
Theorem sunfire_apex_is_delimited o :
  Origin.isSunfire o = true →
  ∃ front c apex,
    o = front +:+ String c apex
    ∧ (c = "."%char ∨ c = "/"%char)
    ∧ Origin.same_fold apex "sunfirematrix.com" = true.
Proof.
  intros (pre & w & -> & scheme & labels & apex & -> & Hs & _ & Ha)%isSunfire_shape.
  destruct labels as [ | l rest].
  - change "https://" with ("https:/" +:+ String "/"%char EmptyString) in Hs.
    apply same_fold_snoc in Hs as (s' & x & -> & Hx).
    apply canonicalize_slash in Hx as ->.
    exists (pre +:+ s'), "/"%char, apex. split; [ | by split; [right | ]].
    simpl. by rewrite !append_assoc.
  - destruct (dotted_snoc (l :: rest)) as [d Hd]; [done | ]. rewrite Hd.
    exists (pre +:+ scheme +:+ d), "."%char, apex. split; [ | by split; [left | ]].
    by rewrite !append_assoc.
Qed.

End RouterCorollaries.

(** ** Concrete runs of the routing table *)

Section RouterRuns.
Import Js Http Gateway Observe Router.

(** X3 at work: no body, so the payload [{}] reaches the plan service and
    its list comes back. *)
Lemma routed_success_witness :
  ∃ text,
    @run Sample.platform Sample.empty_request
    = replied (cors_events EmptyString ++ [EvCall FetchPlans (Object [])]) 200
        (json_block text (cors_table EmptyString)) (Some text)
    ∧ header "Content-Length" (json_block text (cors_table EmptyString))
      = Some (HNum (String.length text)).
Proof.
  eexists.
  apply (@routed_success Sample.platform Sample.empty_request (Object []) FetchPlans
           (Array [Object [("id", Number "1"); ("name", Str "Gold")]])).
  - reflexivity.
  - vm_compute. reflexivity.
  - simpl. constructor.
  - reflexivity.
  - vm_compute. reflexivity.
Defined.

(** X4 at work: a plan service that resolves with [undefined]. *)
Lemma unserializable_result_witness :
  ∃ e, @run Fixture.platform Sample.empty_request
       = error_reply
           (cors_events EmptyString ++ [EvCall FetchPlans (Object []); EvConsoleError e])
           500 "Internal server error" (cors_table EmptyString).
Proof.
  apply (@unserializable_result Fixture.platform Sample.empty_request (Object [])
           FetchPlans Undefined).
  - reflexivity.
  - vm_compute. reflexivity.
  - simpl. constructor.
  - reflexivity.
  - intros text. simpl. discriminate.
Defined.

(** X8 at work: [GET /plans] with a body, on two platforms. *)
Lemma non_post_ignores_body_witness :
  @run Sample.platform (Sample.get "/plans" None)
  = @run Fixture.platform (with_chunks (Sample.get "/plans" None) ["{}"]).
Proof.
  apply (non_post_ignores_body Sample.platform Fixture.platform
           (Sample.get "/plans" None) ["{}"]).
  simpl. discriminate.
Defined.

(** X9 at work: the same ASCII text in two chunks and in one. *)
Lemma chunking_invariance_witness :
  @run Sample.platform (with_chunks Sample.garbage_request ["not-"; "json{"])
  = @run Sample.platform (with_chunks Sample.garbage_request ["not-json{"]).
Proof.
  apply (@chunking_invariance Sample.platform Sample.garbage_request
           ["not-"; "json{"] ["not-json{"]).
  reflexivity.
Defined.

(** X12 at work: an extension origin. *)
Lemma approved_origin_echoed_witness :
  ∃ before st block b,
    @run Sample.platform Sample.fail_request = replied before st block b
    ∧ header "Access-Control-Allow-Origin" block
      = Some (HStr "chrome-extension://abc")
    ∧ header "Vary" block = Some (HStr "Origin").
Proof.
  apply (@approved_origin_echoed Sample.platform Sample.fail_request).
  right. right. exists "abc". reflexivity.
Defined.

(** X13 at work: a Sunfire subdomain. *)
Lemma sunfire_apex_is_delimited_witness :
  ∃ front c apex,
    "https://a.sunfirematrix.com" = front +:+ String c apex
    ∧ (c = "."%char ∨ c = "/"%char)
    ∧ Origin.same_fold apex "sunfirematrix.com" = true.
Proof.
  apply (sunfire_apex_is_delimited "https://a.sunfirematrix.com").
  vm_compute. reflexivity.
Defined.

(** X14 at work: a fresh response and the 404 object. *)
Lemma sendJson_all_or_nothing_witness :
  (∃ text, headersSent fresh = false
           ∧ JSON_stringify (error_object "Not found") = Normal (Some text)
           ∧ sendJson 404 (error_object "Not found") fresh
             = (Normal tt,
                answered (json_block text (outHeaders fresh))
                  (trace fresh ++ [EvHead 404 (json_block text (outHeaders fresh));
                                   EvEnd (Some text)])))
  ∨ (∃ e, sendJson 404 (error_object "Not found") fresh = (Throw e, fresh)).
Proof.
  apply (sendJson_all_or_nothing 404 (error_object "Not found") fresh).
  simpl. discriminate.
Defined.

End RouterRuns.

(** ** The API base of the extension *)

Section ApiBase.
Import RegExp Extension.

Lemma matches_chr c s :
  matches (chr c) s = true ↔ s = String c EmptyString.
Proof.
  rewrite matches_lang. unfold chr. rewrite lang_class_inv. split.
  - intros (x & -> & Hx). by apply bool_decide_eq_true_1 in Hx as ->.
  - intros ->. exists c. split; [done | by apply bool_decide_eq_true_2].
Qed.

Lemma replace_end_cons r c s :
  replace_end r (String c s)
  = if matches r (String c s) then EmptyString else String c (replace_end r s).
Proof. reflexivity. Qed.

Lemma strip_slash_snoc s : strip_slash (s +:+ "/") = s.
Proof.
  unfold strip_slash. induction s as [ | c s IH]; [done | ].
  rewrite append_cons, replace_end_cons.
  destruct (matches (chr "/") (String c (s +:+ "/"))) eqn:Hm.
  - apply matches_chr in Hm. injection Hm as _ Hs. by destruct s.
  - by rewrite IH.
Qed.

Lemma strip_slash_other s : (∀ t, s ≠ t +:+ "/") → strip_slash s = s.
Proof.
  unfold strip_slash. induction s as [ | c s IH]; intros Hn; [done | ].
  rewrite replace_end_cons. destruct (matches (chr "/") (String c s)) eqn:Hm.
  - apply matches_chr in Hm. by destruct (Hn EmptyString).
  - rewrite IH; [done | ]. intros t ->. by destruct (Hn (String c t)).
Qed.

Lemma ends_with_slash_dec s : (∃ t, s = t +:+ "/") ∨ (∀ t, s ≠ t +:+ "/").
Proof.
  induction s as [ | c s IH].
  - right. intros [ | ? ?]; discriminate.
  - destruct IH as [[t ->] | Hn]; [left; by exists (String c t) | ].
    destruct (decide (String c s = "/")) as [-> | Hne].
    + left. by exists EmptyString.
    + right. intros [ | x t] E; rewrite ?append_nil_l, ?append_cons in E.
      * done.
      * injection E as -> ->. by destruct (Hn t).
Qed.

Lemma strip_slash_cases s :
  (∃ t, s = t +:+ "/" ∧ strip_slash s = t)
  ∨ ((∀ t, s ≠ t +:+ "/") ∧ strip_slash s = s).
Proof.
  destruct (ends_with_slash_dec s) as [[t ->] | Hn].
  - left. exists t. split; [done | apply strip_slash_snoc].
  - right. split; [done | by apply strip_slash_other].
Qed.

(** X15. [replace(/\/$/, '')] takes exactly one slash off the end: a string
    that ends with a slash loses that slash and nothing else (so a second
    trailing slash stays), any other string is unchanged. *)
Theorem strip_slash_once s :
  (∃ t, s = t +:+ "/" ∧ strip_slash s = t)
  ∨ ((∀ t, s ≠ t +:+ "/") ∧ strip_slash s = s).
Proof. apply strip_slash_cases. Qed.

Lemma default_base_kept : strip_slash DEFAULT_API_BASE = DEFAULT_API_BASE.
Proof. vm_compute. reflexivity. Qed.

(** X16. What the content script uses after a Save that the browser
    accepted: the default when the trimmed input is empty or a single
    slash, otherwise the trimmed input with up to two trailing slashes
    removed, one by the options page and one by [getApiBase]. *)
Theorem base_after_save `{Browser} pg area :
  getApiBase (options_save true pg area).2
  = (if bool_decide (strip_slash (trim (input_value pg)) = EmptyString)
     then DEFAULT_API_BASE
     else strip_slash (strip_slash (trim (input_value pg)))).
Proof.
  unfold getApiBase, options_save, stored_apiBase. simpl.
  rewrite lookup_insert_eq. simpl. unfold Js.or_string.
  case_bool_decide; [apply default_base_kept | done].
Qed.

(** X17. The base the content script works with ends with a slash only
    when the stored base ended with two: with at most one trailing slash
    stored, the health URL it builds has a single slash at the join. *)
Theorem base_trailing_slash area t :
  getApiBase area = t +:+ "/" →
  stored_apiBase area = t +:+ "//".
Proof.
  unfold getApiBase, Js.or_string. case_bool_decide as He.
  - rewrite default_base_kept. intros E.
    assert (Hd : strip_slash DEFAULT_API_BASE = t)
      by (rewrite E; apply strip_slash_snoc).
    rewrite default_base_kept in Hd. subst t. vm_compute in E. discriminate E.
  - destruct (strip_slash_cases (stored_apiBase area)) as [(u & Hu & ->) | [Hno ->]].
    + intros ->. rewrite Hu. by rewrite append_assoc.
    + intros E. by destruct (Hno t).
Qed.

End ApiBase.

(** ** The layout store and the HUD switch *)

Section HudFacts.
Import Extension.

(** X18. [load] after [save] of the same key gives the saved value when
    the store is readable and took the write; otherwise it gives what
    [load] gave before, the fallback included. *)
Theorem load_after_save key value fallback ls :
  load key fallback (save key value ls)
  = if readable ls && accepts ls key value then value
    else load key fallback ls.
Proof.
  unfold load, save. destruct (readable ls) eqn:Hr; simpl; [ | by rewrite Hr].
  destruct (accepts ls key value); simpl; [ | by rewrite Hr].
  by rewrite lookup_insert_eq.
Qed.

(** X19. [save] of one key never changes what [load] gives for another. *)
Theorem load_after_save_other key key' value fallback ls :
  key ≠ key' →
  load key' fallback (save key value ls) = load key' fallback ls.
Proof.
  intros Hne. unfold load, save.
  destruct (readable ls && accepts ls key value) eqn:Hw; [ | done].
  apply andb_true_iff in Hw as [Hr _]. simpl. rewrite Hr.
  by rewrite lookup_insert_ne.
Qed.

Lemma panel_ok_initial : panel_ok initial_panel.
Proof.
  unfold panel_ok, tab_keys. split; [done | ]. split; [ | done].
  simpl. rewrite !elem_of_cons. auto.
Qed.

Lemma panel_ok_click key p :
  key ∈ tab_keys → panel_ok p →
  panel_ok (click_tab key p) ∧ shown (click_tab key p) = [key].
Proof.
  intros Hk (Hd & _ & _). unfold panel_ok, click_tab, shown. simpl.
  destruct (display p) as [ | [k1 d1] [ | [k2 d2] [ | [k3 d3] [ | ? ?]]]];
    try discriminate Hd.
  injection Hd as -> -> ->. unfold tab_keys in *.
  rewrite !elem_of_cons, elem_of_nil in Hk.
  destruct Hk as [-> | [-> | [-> | []]]];
    repeat split; try (vm_compute; reflexivity); rewrite !elem_of_cons; auto.
Qed.

Lemma hud_ok_loaded : hud_ok page_loaded.
Proof. by split. Qed.

Lemma hud_ok_inject h : hud_ok h → hud_ok (inject h).
Proof.
  intros Hok. unfold inject. destruct (injected h) eqn:Hi; [done | ].
  destruct Hok as [Hl Hh]. rewrite Hi in Hl.
  split; [simpl; by rewrite Hl | ]. simpl.
  destruct (HOST_CONTAINER h) as [c | ]; [ | done].
  destruct Hh as (_ & Hc & _). congruence.
Qed.

Lemma hud_ok_unmount h : hud_ok h → hud_ok (unmountHud h).
Proof.
  intros [Hl Hh]. split; [done | ]. simpl. split; [done | ].
  destruct (HOST_CONTAINER h) as [c | ]; [ | by destruct Hh].
  destruct Hh as (_ & _ & _ & p & -> & _).
  rewrite filter_cons. simpl. by rewrite decide_False by (by intros []).
Qed.

Lemma hud_ok_mount h : hud_ok h → injected h = true → hud_ok (mountHud h).
Proof.
  intros Hok Hi. unfold mountHud. destruct (mounted h) eqn:Hm; [done | ].
  destruct Hok as [Hl Hh]. split; [done | ]. simpl.
  destruct (HOST_CONTAINER h) as [c | ].
  - destruct Hh as (Hc & _). congruence.
  - destruct Hh as (_ & ->). split; [done | ]. split; [done | ]. split; [lia | ].
    exists initial_panel. split; [done | apply panel_ok_initial].
Qed.

Lemma hud_ok_message type h : hud_ok h → injected h = true → hud_ok (onMessage type h).
Proof.
  intros Hok Hi. unfold onMessage. destruct type as [t | ]; [ | done].
  case_bool_decide; [ | done].
  destruct (mounted h); [by apply hud_ok_unmount | by apply hud_ok_mount].
Qed.

(** What a message does, given one listener at most. *)
Lemma step_message type h :
  hud_ok h →
  step h (Message type) = if injected h then onMessage type h else h.
Proof.
  intros [Hl _]. simpl. rewrite Hl. by destruct (injected h).
Qed.

Lemma attached_host c h :
  hud_ok h → attached c h = true →
  HOST_CONTAINER h = Some c ∧ ∃ p, hosts h = [(c, p)] ∧ panel_ok p.
Proof.
  intros [_ Hh] Ha. apply bool_decide_eq_true_1 in Ha.
  destruct (HOST_CONTAINER h) as [c' | ].
  - destruct Hh as (_ & _ & _ & p & Hp & Hok). rewrite Hp in Ha. simpl in Ha.
    apply list_elem_of_singleton in Ha as ->. eauto.
  - destruct Hh as (_ & Hp). rewrite Hp in Ha. by apply elem_of_nil in Ha.
Qed.

Lemma hud_ok_tab c key h :
  hud_ok h → attached c h = true → key ∈ tab_keys → hud_ok (onTabClick c key h).
Proof.
  intros Hok Ha Hk. destruct (attached_host c h Hok Ha) as (Hc & p & Hp & Hpok).
  destruct Hok as [Hl Hh]. rewrite Hc in Hh. destruct Hh as (Hm & Hi & Hn & _).
  split; [done | ]. simpl. rewrite Hc, Hp. simpl.
  rewrite bool_decide_eq_true_2 by done.
  split; [done | ]. split; [done | ]. split; [done | ].
  exists (click_tab key p). split; [done | ]. by apply panel_ok_click.
Qed.

Lemma hud_ok_step h a : hud_ok h → hud_ok (step h a).
Proof.
  intros Hok. destruct a as [ | type | c | c key].
  - by apply hud_ok_inject.
  - rewrite step_message by done. destruct (injected h) eqn:Hi; [ | done].
    by apply hud_ok_message.
  - simpl. destruct (attached c h); [by apply hud_ok_unmount | done].
  - simpl. destruct (attached c h) eqn:Ha; [ | done].
    case_bool_decide; [ | done]. by apply hud_ok_tab.
Qed.

Lemma hud_ok_foldl acts : ∀ h, hud_ok h → hud_ok (foldl step h acts).
Proof.
  induction acts as [ | a acts IH]; intros h Hok; [done | ].
  simpl. by apply IH, hud_ok_step.
Qed.

Lemma hud_ok_after acts : hud_ok (after acts).
Proof. apply hud_ok_foldl, hud_ok_loaded. Qed.

(** X20. Whatever happens to the page (the script injected again,
    messages, clicks), the script has at most one message listener, the
    document holds one HUD host when [STATE.mounted] is set and none
    otherwise, and [HOST_CONTAINER] is set exactly when a host is there. *)
Theorem one_hud_at_most acts :
  (listeners (after acts) ≤ 1)%nat
  ∧ length (hosts (after acts)) = (if mounted (after acts) then 1 else 0)
  ∧ (hosts (after acts)).*1
    = match HOST_CONTAINER (after acts) with Some c => [c] | None => [] end.
Proof.
  destruct (hud_ok_after acts) as [Hl Hh]. split.
  { rewrite Hl. destruct (injected _); lia. }
  destruct (HOST_CONTAINER (after acts)) as [c | ].
  - destruct Hh as (-> & _ & _ & p & -> & _). by split.
  - destruct Hh as (-> & ->). by split.
Qed.

(** X21. A message does something only if the script has run and the type
    is [MAI_TOGGLE_HUD]; then it unmounts a mounted HUD and mounts an
    unmounted one, once, so the mounted flag flips. *)
Theorem message_toggles_once acts type :
  step (after acts) (Message type)
  = (if injected (after acts) && bool_decide (type = Some "MAI_TOGGLE_HUD")
     then if mounted (after acts) then unmountHud (after acts)
          else mountHud (after acts)
     else after acts)
  ∧ (injected (after acts) = true →
     mounted (step (after acts) toggle) = negb (mounted (after acts))).
Proof.
  pose proof (hud_ok_after acts) as Hok. split.
  - rewrite step_message by done. destruct (injected (after acts)); [ | done].
    unfold onMessage. simpl. destruct type as [t | ]; [ | done].
    case_bool_decide as Ht.
    + subst t. by rewrite bool_decide_eq_true_2.
    + rewrite bool_decide_eq_false_2; [done | ]. by intros [= ->].
  - intros Hi. unfold toggle. rewrite step_message by done. rewrite Hi.
    unfold onMessage. rewrite bool_decide_eq_true_2 by done.
    unfold mountHud. by destruct (mounted (after acts)) eqn:Hm.
Qed.

(** X22. A click on a tab of the mounted HUD leaves exactly the view of
    that tab shown and records the tab in [STATE.activeTab]. *)
Theorem tab_click_shows_one_view acts c key :
  attached c (after acts) = true →
  key ∈ tab_keys →
  activeTab (step (after acts) (TabClick c key)) = key
  ∧ ∃ p, hosts (step (after acts) (TabClick c key)) = [(c, p)]
         ∧ active_tab p = key ∧ shown p = [key].
Proof.
  intros Ha Hk. pose proof (hud_ok_after acts) as Hok.
  destruct (attached_host c _ Hok Ha) as (Hc & p & Hp & Hpok).
  simpl. rewrite Ha, (bool_decide_eq_true_2 _ Hk). simpl. split; [done | ].
  rewrite Hp. simpl. rewrite bool_decide_eq_true_2 by done.
  exists (click_tab key p). split; [done | ]. split; [done | ].
  by apply panel_ok_click.
Qed.

Lemma toggle_mounted h :
  hud_ok h → injected h = true → mounted h = true → step h toggle = unmountHud h.
Proof.
  intros Hok Hi Hm. unfold toggle. rewrite step_message, Hi by done.
  unfold onMessage. by rewrite bool_decide_eq_true_2, Hm.
Qed.

Lemma toggle_unmounted h :
  hud_ok h → injected h = true → mounted h = false → step h toggle = mountHud h.
Proof.
  intros Hok Hi Hm. unfold toggle. rewrite step_message, Hi by done.
  unfold onMessage. by rewrite bool_decide_eq_true_2, Hm.
Qed.

(** X23. Unmounting and mounting again builds a new panel: it shows the
    checklist view whatever tab was chosen before, while [STATE.activeTab]
    still names the tab chosen before. *)
Theorem remount_resets_view acts c key :
  attached c (after acts) = true →
  key ∈ tab_keys →
  activeTab (after (acts ++ [TabClick c key; toggle; toggle])) = key
  ∧ ∃ c', hosts (after (acts ++ [TabClick c key; toggle; toggle]))
          = [(c', initial_panel)]
          ∧ c' ≠ c
          ∧ shown initial_panel = ["checklist"].
Proof.
  intros Ha Hk. pose proof (hud_ok_after acts) as Hok.
  destruct (attached_host c _ Hok Ha) as (Hc & p & Hp & Hpok).
  pose proof Hok as [Hl Hh]. rewrite Hc in Hh. destruct Hh as (Hm & Hi & Hn & _).
  unfold after. rewrite foldl_app. fold (after acts).
  set (h0 := after acts) in *. cbn [foldl].
  assert (E1 : step h0 (TabClick c key) = onTabClick c key h0).
  { simpl. by rewrite Ha, (bool_decide_eq_true_2 _ Hk). }
  rewrite E1. set (h1 := onTabClick c key h0).
  assert (Hok1 : hud_ok h1) by (by apply hud_ok_tab).
  rewrite (toggle_mounted h1) by done. set (h2 := unmountHud h1).
  assert (Hok2 : hud_ok h2) by (by apply hud_ok_unmount).
  rewrite (toggle_unmounted h2) by done.
  assert (Hh2 : hosts h2 = []).
  { destruct Hok2 as [_ Hh2]. by destruct Hh2. }
  unfold mountHud. change (mounted h2) with false. cbn [activeTab hosts].
  rewrite Hh2. split; [done | ].
  exists (next_host h0). split; [done | ]. split; [lia | done].
Qed.

End HudFacts.

(** ** Concrete runs of the extension *)

Section ExtensionRuns.
Import Extension.

Example save_blank_falls_back :
  getApiBase
    (@options_save ascii_browser true
       {| input_value := "  /  "; message := EmptyString |} ∅).2
  = DEFAULT_API_BASE.
Proof. vm_compute. reflexivity. Qed.

Example save_two_slashes :
  getApiBase
    (@options_save ascii_browser true
       {| input_value := " https://api.example.test// "; message := EmptyString |}
       ∅).2
  = "https://api.example.test".
Proof. vm_compute. reflexivity. Qed.

(** X17 at work: a base stored with two trailing slashes. *)
Lemma base_trailing_slash_witness :
  stored_apiBase {["apiBase" := "https://api.example.test//"]}
  = "https://api.example.test" +:+ "//".
Proof.
  apply (base_trailing_slash {["apiBase" := "https://api.example.test//"]}
           "https://api.example.test").
  vm_compute. reflexivity.
Defined.

(** X19 at work: the top and the left of the panel. *)
Lemma load_after_save_other_witness :
  load "mai_left" EmptyString (save "mai_top" "120px" (roomy ∅))
  = load "mai_left" EmptyString (roomy ∅).
Proof.
  apply (load_after_save_other "mai_top" "mai_left" "120px" EmptyString (roomy ∅)).
  discriminate.
Defined.

(** X22 at work: the script runs, the HUD is toggled on, the drugs tab is
    clicked. *)
Lemma tab_click_shows_one_view_witness :
  activeTab (step (after [ScriptRuns; toggle]) (TabClick 0 "drugs")) = "drugs"
  ∧ ∃ p, hosts (step (after [ScriptRuns; toggle]) (TabClick 0 "drugs")) = [(0, p)]
         ∧ active_tab p = "drugs" ∧ shown p = ["drugs"].
Proof.
  apply (tab_click_shows_one_view [ScriptRuns; toggle] 0 "drugs").
  - vm_compute. reflexivity.
  - unfold tab_keys. rewrite !elem_of_cons. auto.
Defined.

(** X23 at work: the same, then off and on again. *)
Lemma remount_resets_view_witness :
  activeTab (after ([ScriptRuns; toggle] ++ [TabClick 0 "drugs"; toggle; toggle]))
  = "drugs"
  ∧ ∃ c', hosts (after ([ScriptRuns; toggle]
                        ++ [TabClick 0 "drugs"; toggle; toggle]))
          = [(c', initial_panel)]
          ∧ c' ≠ 0
          ∧ shown initial_panel = ["checklist"].
Proof.
  apply (remount_resets_view [ScriptRuns; toggle] 0 "drugs").
  - vm_compute. reflexivity.
  - unfold tab_keys. rewrite !elem_of_cons. auto.
Defined.

End ExtensionRuns.

(** ** What is sent for the other methods *)

Section OtherMethods.
Import Js Http Gateway Observe Router.

Lemma response_replied req before st block data :
  statuses before = [] → bodies before = [] →
  Wire.response req (replied before st block data)
  = Some (st, Wire.sent (method req) st data).
Proof.
  intros Hs Hb. unfold Wire.response, replied, answered. simpl.
  unfold statuses, bodies in *. by rewrite !omap_app, Hs, Hb.
Qed.

Lemma sent_not_found m data :
  Wire.sent m 404 data = if bool_decide (m = "HEAD") then None else data.
Proof. unfold Wire.sent, Wire.hasBody. by case_bool_decide. Qed.

(** C8 as amended. A request whose method is neither OPTIONS nor POST, and
    which is not a GET of [/health] or [/api/health], is answered 404,
    never 405: the listener hands [{"error":"Not found"}] and its length to
    the response, and that text is the body sent, except on a HEAD
    request, where the same status and headers go out with no body. *)
Theorem other_methods_not_found `{Platform} req :
  method req ≠ "OPTIONS" →
  method req ≠ "POST" →
  ¬ (method req = "GET" ∧ (url req = "/health" ∨ url req = "/api/health")) →
  run req = error_reply (cors_events (origin_of req)) 404 "Not found"
              (cors_table (origin_of req))
  ∧ Wire.response req (run req)
    = Some (404, if bool_decide (method req = "HEAD") then None
                 else Some (error_text "Not found")).
Proof.
  intros Ho Hp Hh.
  assert (Hr : run req = error_reply (cors_events (origin_of req)) 404 "Not found"
                           (cors_table (origin_of req))).
  { apply listener_not_found; [done | by apply not_health | done]. }
  split; [done | ]. rewrite Hr. unfold error_reply.
  destruct (cors_events_silent (origin_of req)) as (Cs & Cb & _).
  by rewrite response_replied, sent_not_found.
Qed.

(** C8, counterexample. [HEAD /plans] is a request of the claim (neither
    OPTIONS nor POST, not the health route) and its response has no body:
    it is not the 404 with the body [{"error":"Not found"}]. *)
Lemma head_not_found_without_body :
  method Wire.head_request ≠ "OPTIONS"
  ∧ method Wire.head_request ≠ "POST"
  ∧ ¬ (method Wire.head_request = "GET"
       ∧ (url Wire.head_request = "/health" ∨ url Wire.head_request = "/api/health"))
  ∧ ¬ Wire.not_found_as_specified Wire.head_request
        (@run Sample.platform Wire.head_request).
Proof.
  split; [discriminate | ]. split; [discriminate | ].
  split; [by intros [Hm _] | ].
  unfold Wire.not_found_as_specified.
  rewrite (@listener_not_found Sample.platform Wire.head_request)
    by (reflexivity || discriminate).
  unfold error_reply.
  destruct (cors_events_silent (origin_of Wire.head_request)) as (Cs & Cb & _).
  rewrite response_replied, sent_not_found by done. simpl. discriminate.
Qed.

(** C8 at work: [GET /plans]. *)
Lemma other_methods_not_found_witness :
  @run Sample.platform (Sample.get "/plans" None)
  = error_reply (cors_events EmptyString) 404 "Not found" (cors_table EmptyString)
  ∧ Wire.response (Sample.get "/plans" None)
      (@run Sample.platform (Sample.get "/plans" None))
    = Some (404, Some (error_text "Not found")).
Proof.
  apply (@other_methods_not_found Sample.platform (Sample.get "/plans" None)).
  - simpl. discriminate.
  - simpl. discriminate.
  - simpl. intros [_ [Hu | Hu]]; discriminate Hu.
Defined.

End OtherMethods.
